(** * A shallow embedding of dock-batch-updater's core

    Modelled sources:
    - [src/utils/format_preserver.py]: [FormatPreserver.capture_run_format]
      and [FormatPreserver.apply_run_format];
    - [src/core/docx_processor.py]: [DocxProcessor._replace_in_paragraph],
      [_replace_in_table], [replace_text], [replace_multiple],
      [get_statistics], [create_backup], [load] and [restore_backup];
    - [src/core/batch_processor.py]: [BatchProcessor.process_documents]
      (with its callbacks), [_process_single_file], [_validate_files],
      [get_summary], [get_failed_results] and [get_successful_results].

    A Python [str] is a list of Unicode code points.  A [while True] loop is
    run with fuel: [None] means the loop has not left within the given
    number of iterations. *)

From Stdlib Require Import ZArith Lia.
From stdpp Require Import base list gmap sets strings.

(* ------------------------------------------------------------------ *)
(** ** Python strings *)

Abbreviation pystr := (list Z).

(** ASCII literal to a Python string. *)
Definition py (x : string) : pystr :=
  map (fun a => Z.of_nat (Ascii.nat_of_ascii a)) (String.list_ascii_of_string x).

(** [sub] is a prefix of [t]. *)
Fixpoint is_prefix (sub t : pystr) : bool :=
  match sub, t with
  | [], _ => true
  | c :: sub', d :: t' => Z.eqb c d && is_prefix sub' t'
  | _ :: _, [] => false
  end.

Fixpoint find_aux (t sub : pystr) (i : nat) : option nat :=
  if is_prefix sub t then Some i
  else match t with
       | [] => None
       | _ :: t' => find_aux t' sub (S i)
       end.

(** [t.find(sub, start)]; [None] stands for [-1].  A start beyond the end
    gives [-1] even for an empty [sub]. *)
Definition py_find (t sub : pystr) (start : nat) : option nat :=
  if Nat.ltb (length t) start then None else find_aux (drop start t) sub start.

(** [sub in t] *)
Definition py_contains (t sub : pystr) : bool :=
  match py_find t sub 0 with Some _ => true | None => false end.

(* ------------------------------------------------------------------ *)
(** ** Runs and their formatting (format_preserver.py) *)

(** The font attributes of a python-docx run that the preserver reads.
    [None] is Python's [None].  Underline and highlight are enum members
    (ints; [False] is 0), a colour is an [RGBColor] (a 3-tuple, truthy). *)
Record font := mkFont {
  f_name : option pystr;
  f_size : option Z;
  f_bold : option bool;
  f_italic : option bool;
  f_underline : option Z;
  f_color_rgb : option Z;
  f_highlight : option Z;
  f_strike : option bool;
  f_subscript : option bool;
  f_superscript : option bool
}.

(** The [format_data] dict: a key is present iff its field is [Some]. *)
Record format_data := mkFormatData {
  d_font_name : option pystr;
  d_font_size : option Z;
  d_bold : option bool;
  d_italic : option bool;
  d_underline : option Z;
  d_color_rgb : option Z;
  d_highlight_color : option Z;
  d_strike : option bool;
  d_subscript : option bool;
  d_superscript : option bool
}.

Record run := mkRun { r_text : pystr; r_font : font }.

(** [if run.font.x:] keeps a truthy value. *)
Definition if_truthy_str (o : option pystr) : option pystr :=
  match o with Some (_ :: _) => o | _ => None end.

Definition if_truthy_int (o : option Z) : option Z :=
  match o with Some z => if Z.eqb z 0 then None else o | None => None end.

Definition capture_run_format (r : run) : format_data :=
  let f := r_font r in
  {| d_font_name := if_truthy_str (f_name f);
     d_font_size := if_truthy_int (f_size f);
     d_bold := f_bold f;                        (* is not None *)
     d_italic := f_italic f;
     d_underline := if_truthy_int (f_underline f);
     d_color_rgb := f_color_rgb f;              (* color and color.rgb *)
     d_highlight_color := if_truthy_int (f_highlight f);
     d_strike := f_strike f;
     d_subscript := f_subscript f;
     d_superscript := f_superscript f |}.

(** [if 'k' in format_data: run.font.x = format_data['k']] *)
Definition put {A} (key : option A) (cur : option A) : option A :=
  match key with Some v => Some v | None => cur end.

Definition apply_run_format (r : run) (d : format_data) : run :=
  let f := r_font r in
  mkRun (r_text r)
    {| f_name := put (d_font_name d) (f_name f);
       f_size := put (d_font_size d) (f_size f);
       f_bold := put (d_bold d) (f_bold f);
       f_italic := put (d_italic d) (f_italic f);
       f_underline := put (d_underline d) (f_underline f);
       f_color_rgb := put (d_color_rgb d) (f_color_rgb f);
       f_highlight := put (d_highlight_color d) (f_highlight f);
       f_strike := put (d_strike d) (f_strike f);
       f_subscript := put (d_subscript d) (f_subscript f);
       f_superscript := put (d_superscript d) (f_superscript f) |}.

(** [run.text = t]: python-docx clears the run's content but keeps its
    [w:rPr], so the font is kept. *)
Definition set_text (r : run) (t : pystr) : run := mkRun t (r_font r).

(* ------------------------------------------------------------------ *)
(** ** Paragraph replacement (docx_processor.py) *)

Abbreviation paragraph := (list run).

(** [paragraph.text]: the concatenation of the run texts. *)
Definition para_text (p : paragraph) : pystr := mjoin (map r_text p).

(** The [for run_idx, run in enumerate(paragraph.runs)] loop, from run
    [idx] with [current_pos = cur]; it returns
    [(start_run_idx, start_offset)] and [(end_run_idx, end_offset)]. *)
Fixpoint locate (rs : list run) (idx cur start_pos end_pos : nat)
    (start : option (nat * nat)) : option (nat * nat) * option (nat * nat) :=
  match rs with
  | [] => (start, None)
  | r :: rs' =>
      let run_end := (cur + length (r_text r))%nat in
      let start' :=
        match start with
        | None => if Nat.ltb start_pos run_end then Some (idx, start_pos - cur)%nat
                  else None
        | Some _ => start
        end in
      if Nat.leb end_pos run_end then (start', Some (idx, end_pos - cur)%nat)
      else locate rs' (S idx) run_end start_pos end_pos start'
  end.

(** [paragraph.runs[idx].text = ""] *)
Definition clear_at (idx : nat) (rs : list run) : list run :=
  match rs !! idx with
  | Some r => <[idx := set_text r []]> rs
  | None => rs
  end.

(** [for idx in range(lo, lo + n): paragraph.runs[idx].text = ""] *)
Fixpoint clear_runs (lo n : nat) (rs : list run) : list run :=
  match n with
  | O => rs
  | S n' => clear_runs (S lo) n' (clear_at lo rs)
  end.

(** One iteration of the [while True] loop of [_replace_in_paragraph],
    with cursor [search_start]; [None] is a [break], otherwise the new runs
    and the new cursor. *)
Definition replace_step (rs : paragraph) (search_text replace_text : pystr)
    (search_start : nat) : option (paragraph * nat) :=
  match py_find (para_text rs) search_text search_start with
  | None => None
  | Some match_index =>
      let start_pos := match_index in
      let end_pos := (match_index + length search_text)%nat in
      match locate rs 0 0 start_pos end_pos None with
      | (Some (start_run_idx, start_offset), Some (end_run_idx, end_offset)) =>
          match rs !! start_run_idx, rs !! end_run_idx with
          | Some start_run, Some end_run =>
              let fmt := capture_run_format start_run in
              let new_text := take start_offset (r_text start_run)
                              ++ replace_text ++ drop end_offset (r_text end_run) in
              let rs1 := <[start_run_idx :=
                             apply_run_format (set_text start_run new_text) fmt]> rs in
              Some (clear_runs (S start_run_idx) (end_run_idx - start_run_idx) rs1,
                    (match_index + length replace_text)%nat)
          | _, _ => None   (* unreachable: both indices come from [locate] *)
          end
      | _ => None
      end
  end.

Fixpoint replace_loop (fuel : nat) (rs : paragraph) (search_text replace_text : pystr)
    (search_start count : nat) : option (paragraph * nat) :=
  match fuel with
  | O => None
  | S fuel' =>
      match replace_step rs search_text replace_text search_start with
      | None => Some (rs, count)
      | Some (rs', search_start') =>
          replace_loop fuel' rs' search_text replace_text search_start' (S count)
      end
  end.

(** [_replace_in_paragraph]: the paragraph after the call and the count. *)
Definition replace_in_paragraph (fuel : nat) (rs : paragraph)
    (search_text replace_text : pystr) : option (paragraph * nat) :=
  if negb (py_contains (para_text rs) search_text) then Some (rs, 0%nat)
  else replace_loop fuel rs search_text replace_text 0 0.

(* ------------------------------------------------------------------ *)
(** ** Tables and documents *)

(** A table is rows of cells; a cell owns paragraphs and nested tables.
    (python-docx repeats a merged cell in [row.cells]; merged cells are not
    modelled: every cell is its own.) *)
Inductive table := Table (rows : list (list cell))
with cell := Cell (c_paragraphs : list paragraph) (c_tables : list table).

Record document := mkDocument { paragraphs : list paragraph; tables : list table }.

(** [for x in xs: x, n = f(x); count += n], stopping when [f] does not
    return. *)
Fixpoint map_count {A} (f : A -> option (A * nat)) (xs : list A) : option (list A * nat) :=
  match xs with
  | [] => Some ([], 0)
  | x :: xs' =>
      match f x with
      | None => None
      | Some (x', n) =>
          match map_count f xs' with
          | None => None
          | Some (xs'', m) => Some (x' :: xs'', n + m)
          end
      end
  end.

(** [_replace_in_table]: every cell's paragraphs, then its nested tables. *)
Fixpoint replace_in_table (fuel : nat) (search_text replace_text : pystr) (t : table)
    : option (table * nat) :=
  match t with
  | Table rows =>
      match map_count (map_count (replace_in_cell fuel search_text replace_text)) rows with
      | None => None
      | Some (rows', n) => Some (Table rows', n)
      end
  end
with replace_in_cell (fuel : nat) (search_text replace_text : pystr) (c : cell)
    : option (cell * nat) :=
  match c with
  | Cell ps ts =>
      match map_count (fun p => replace_in_paragraph fuel p search_text replace_text) ps with
      | None => None
      | Some (ps', n) =>
          match map_count (replace_in_table fuel search_text replace_text) ts with
          | None => None
          | Some (ts', m) => Some (Cell ps' ts', n + m)
          end
      end
  end.

(** [replace_text]; [self.doc] is [None] when no document is loaded.  The
    progress callback is left out. *)
Definition replace_text (fuel : nat) (doc : option document) (search_text replace_text : pystr)
    : option (option document * nat) :=
  match doc with
  | None => Some (None, 0)
  | Some d =>
      match map_count (fun p => replace_in_paragraph fuel p search_text replace_text)
              (paragraphs d) with
      | None => None
      | Some (ps, n) =>
          match map_count (replace_in_table fuel search_text replace_text) (tables d) with
          | None => None
          | Some (ts, m) => Some (Some (mkDocument ps ts), n + m)
          end
      end
  end.

(** Every paragraph of a document, in tables at any depth too. *)
Fixpoint table_paragraphs (t : table) : list paragraph :=
  match t with
  | Table rows => mjoin ((fun row => mjoin (cell_paragraphs <$> row)) <$> rows)
  end
with cell_paragraphs (c : cell) : list paragraph :=
  match c with
  | Cell ps ts => ps ++ mjoin (table_paragraphs <$> ts)
  end.

Definition doc_paragraphs (d : document) : list paragraph :=
  paragraphs d ++ mjoin (table_paragraphs <$> tables d).

(** Induction over tables and cells together. *)
Section TableInduction.
Variable P : table -> Prop.
Variable Q : cell -> Prop.
Hypothesis HT : forall rows, Forall (Forall Q) rows -> P (Table rows).
Hypothesis HC : forall ps ts, Forall P ts -> Q (Cell ps ts).

Fixpoint table_cell_ind (t : table) : P t :=
  match t with
  | Table rows =>
      HT rows
        ((fix go_rows (rs : list (list cell)) : Forall (Forall Q) rs :=
            match rs with
            | [] => List.Forall_nil _
            | r :: rs' =>
                List.Forall_cons _ _ _
                  ((fix go_cells (cs : list cell) : Forall Q cs :=
                      match cs with
                      | [] => List.Forall_nil _
                      | c :: cs' => List.Forall_cons _ _ _ (cell_table_ind c) (go_cells cs')
                      end) r)
                  (go_rows rs')
            end) rows)
  end
with cell_table_ind (c : cell) : Q c :=
  match c with
  | Cell ps ts =>
      HC ps ts
        ((fix go (ts : list table) : Forall P ts :=
            match ts with
            | [] => List.Forall_nil _
            | t :: ts' => List.Forall_cons _ _ _ (table_cell_ind t) (go ts')
            end) ts)
  end.
End TableInduction.

(** The attribute after [apply_run_format]: overwritten when the key is in
    the snapshot, the one before otherwise. *)
Definition overwritten {A} (key : option A) (before after : option A) : Prop :=
  match key with
  | Some v => after = Some v
  | None => after = before
  end.

(* ------------------------------------------------------------------ *)
(** ** Batch processing (batch_processor.py) *)

Record processing_result := mkResult {
  res_file_path : pystr;
  res_success : bool;
  res_message : pystr;
  res_replacements : nat;
  res_backup_path : pystr
}.

(** What the file system answers for a path: [os.path.exists],
    [os.access(p, os.R_OK)] and [DocxProcessor.is_docx_file] (the zip
    probe). *)
Record fs_view := mkFsView {
  path_exists : pystr -> bool;
  readable : pystr -> bool;
  is_docx_file : pystr -> bool
}.

(** [_validate_files] *)
Fixpoint validate_files (fsv : fs_view) (file_paths : list pystr) : list pystr :=
  match file_paths with
  | [] => []
  | p :: ps =>
      if negb (path_exists fsv p) then validate_files fsv ps
      else if negb (readable fsv p) then validate_files fsv ps
      else if is_docx_file fsv p then p :: validate_files fsv ps
      else validate_files fsv ps
  end.


(** The outcomes of the I/O a task performs, for each path: [load()],
    the errors of [validate_document()], [create_backup()] (its path, or the
    message of the exception it raises), the replacement count and
    [save()]. *)
Record task_env := mkTaskEnv {
  load_ok : pystr -> bool;
  doc_errors : pystr -> list pystr;
  backup_outcome : pystr -> pystr + pystr;
  replacements_made : pystr -> nat;
  save_ok : pystr -> bool
}.

Inductive io_event := IoLoad (p : pystr) | IoBackup (p : pystr) | IoSave (p : pystr).

(** [", ".join(errors)] *)
Fixpoint join_comma (xs : list pystr) : pystr :=
  match xs with
  | [] => []
  | [x] => x
  | x :: xs' => x ++ py ", " ++ join_comma xs'
  end.

Definition failed (p msg : pystr) : processing_result := mkResult p false msg 0 [].

(** [_process_single_file], given whether the cancellation flag was set
    when the task started; it also returns the I/O it performed. *)
Definition process_single_file (env : task_env) (create_backup : bool) (stopped : bool)
    (file_path : pystr) : processing_result * list io_event :=
  if stopped then (failed file_path (py "Processing cancelled"), [])
  else if negb (load_ok env file_path) then
    (failed file_path (py "Failed to load document"), [IoLoad file_path])
  else
    match doc_errors env file_path with
    | _ :: _ as errors =>
        (failed file_path (py "Invalid document: " ++ join_comma errors), [IoLoad file_path])
    | [] =>
        let backup :=
          if create_backup then
            match backup_outcome env file_path with
            | inl bp => inl (bp, [IoLoad file_path; IoBackup file_path])
            | inr e => inr (e, [IoLoad file_path; IoBackup file_path])
            end
          else inl ([], [IoLoad file_path]) in
        match backup with
        | inr (e, io) => (failed file_path (py "Error: " ++ e), io)
        | inl (backup_path, io) =>
            let total_replacements := replacements_made env file_path in
            if save_ok env file_path then
              (mkResult file_path true (py "Successfully processed") total_replacements
                 backup_path, io ++ [IoSave file_path])
            else
              (mkResult file_path false (py "Failed to save document") 0 backup_path,
               io ++ [IoSave file_path])
        end
    end.

Definition invalid_result (p : pystr) : processing_result :=
  failed p (py "Invalid or unreadable DOCX file").

(** The two optional callbacks of [process_documents].  A callback that is
    given is known by whether its calls raise: [f n x] is [Some msg] when
    its [n]-th call (counting from 0) with argument [x] raises an exception
    [e] with [str(e) = msg], and [None] when that call returns.  [None] for
    the whole field is a callback that is not given. *)
Record callbacks := mkCallbacks {
  progress_callback : option (nat -> nat * nat -> option pystr);
  result_callback : option (nat -> processing_result -> option pystr)
}.


(** The calls [process_documents] makes to [result_callback] and
    [progress_callback]. *)
Inductive callback_call :=
  | ResultCallback (r : processing_result)
  | ProgressCallback (processed total : nat).

Definition result_of (c : callback_call) : option processing_result :=
  match c with ResultCallback r => Some r | _ => None end.

Definition progress_of (c : callback_call) : option (nat * nat) :=
  match c with ProgressCallback k n => Some (k, n) | _ => None end.

(** The state [process_documents] updates: [self.results], the callback
    calls made so far and [processed_count]. *)
Record batch_state := mkBatchState {
  bs_results : list processing_result;
  bs_calls : list callback_call;
  bs_processed : nat
}.

(** [self.results.append(r)] *)
Definition append_result (r : processing_result) (s : batch_state) : batch_state :=
  mkBatchState (bs_results s ++ [r]) (bs_calls s) (bs_processed s).

(** [processed_count += 1] *)
Definition incr_processed (s : batch_state) : batch_state :=
  mkBatchState (bs_results s) (bs_calls s) (S (bs_processed s)).

(** [if result_callback: result_callback(r)]; the second component is
    [Some str(e)] when the call raises [e]. *)
Definition call_result_callback (cbs : callbacks) (r : processing_result) (s : batch_state)
    : batch_state * option pystr :=
  match result_callback cbs with
  | None => (s, None)
  | Some f =>
      (mkBatchState (bs_results s) (bs_calls s ++ [ResultCallback r]) (bs_processed s),
       f (length (omap result_of (bs_calls s))) r)
  end.

(** [if progress_callback: progress_callback(processed_count, total_files)] *)
Definition call_progress_callback (cbs : callbacks) (total_files : nat) (s : batch_state)
    : batch_state * option pystr :=
  match progress_callback cbs with
  | None => (s, None)
  | Some f =>
      (mkBatchState (bs_results s)
         (bs_calls s ++ [ProgressCallback (bs_processed s) total_files]) (bs_processed s),
       f (length (omap progress_of (bs_calls s))) (bs_processed s, total_files))
  end.

(** The [except Exception as e] branch of the [as_completed] loop: an
    exception raised by its own callbacks propagates out of
    [process_documents]. *)
Definition except_branch (cbs : callbacks) (total_files : nat) (file_path e : pystr)
    (s : batch_state) : batch_state * option pystr :=
  let error_result := failed file_path (py "Processing error: " ++ e) in
  match call_result_callback cbs error_result (append_result error_result s) with
  | (s', Some e') => (s', Some e')
  | (s', None) => call_progress_callback cbs total_files (incr_processed s')
  end.

(** The body of the [as_completed] loop after the stop check.
    [future.result()] does not raise: [_process_single_file] catches every
    [Exception] itself.  An exception of either callback in the [try] is
    handled by [except_branch]. *)
Definition loop_body (cbs : callbacks) (total_files : nat) (file_path : pystr)
    (result : processing_result) (s : batch_state) : batch_state * option pystr :=
  match call_result_callback cbs result (incr_processed (append_result result s)) with
  | (s1, Some e) => except_branch cbs total_files file_path e s1
  | (s1, None) =>
      match call_progress_callback cbs total_files s1 with
      | (s2, Some e) => except_branch cbs total_files file_path e s2
      | (s2, None) => (s2, None)
      end
  end.

(** The [for future in as_completed(...)] loop over the completed tasks,
    each with its path [future_to_file[future]] and its result:
    [stop_seen t] is what [self._stop_event.is_set()] answers at
    iteration [t]. *)
Fixpoint as_completed_loop (cbs : callbacks) (stop_seen : nat -> bool) (t total_files : nat)
    (completed : list (pystr * processing_result)) (s : batch_state)
    : batch_state * option pystr :=
  match completed with
  | [] => (s, None)
  | (file_path, result) :: rest =>
      if stop_seen t then (s, None)
      else match loop_body cbs total_files file_path result s with
           | (s', None) => as_completed_loop cbs stop_seen (S t) total_files rest s'
           | (s', Some e) => (s', Some e)
           end
  end.

(** The [for file_path in invalid_files] loop. *)
Fixpoint report_invalid (cbs : callbacks) (invalid_files : list pystr) (s : batch_state)
    : batch_state * option pystr :=
  match invalid_files with
  | [] => (s, None)
  | file_path :: rest =>
      let result := invalid_result file_path in
      match call_result_callback cbs result (append_result result s) with
      | (s', None) => report_invalid cbs rest s'
      | (s', Some e) => (s', Some e)
      end
  end.

(** [set(file_paths) - set(valid_files)], in the order of [elements]. *)
Definition invalid_paths (fsv : fs_view) (file_paths : list pystr) : list pystr :=
  elements (list_to_set file_paths ∖ list_to_set (validate_files fsv file_paths) : gset pystr).

(** The tasks of the valid paths (one per occurrence) complete in the
    order [order], a permutation of their indices; [task_stopped k] is the
    flag seen by task [k] when it starts. *)
Definition completed_tasks (env : task_env) (fsv : fs_view) (create_backup : bool)
    (file_paths : list pystr) (order : list nat) (task_stopped : nat -> bool)
    : list (pystr * processing_result) :=
  let valid_files := validate_files fsv file_paths in
  omap (fun k => (fun p => (p, fst (process_single_file env create_backup (task_stopped k) p)))
                   <$> valid_files !! k) order.

(** A run of [process_documents]: the final state, and [Some str(e)] when
    an exception [e] of a callback propagates out of it.  Invalid paths are
    reported in the iteration order of the Python set
    [set(file_paths) - set(valid_files)], here the order of [elements]. *)
Definition process_documents_run (env : task_env) (fsv : fs_view) (create_backup : bool)
    (cbs : callbacks) (file_paths : list pystr) (order : list nat)
    (task_stopped : nat -> bool) (stop_seen : nat -> bool) : batch_state * option pystr :=
  let valid_files := validate_files fsv file_paths in
  match report_invalid cbs (invalid_paths fsv file_paths) (mkBatchState [] [] 0) with
  | (s, Some e) => (s, Some e)
  | (s, None) =>
      as_completed_loop cbs stop_seen 0 (length valid_files)
        (completed_tasks env fsv create_backup file_paths order task_stopped) s
  end.


(** The shapes of what one iteration of the [as_completed] loop that does
    not raise appends to [self.results]: the task's result, followed by a
    ["Processing error: ..."] result when a callback in the [try]
    raised. *)
Definition loop_block (file_path : pystr) (result : processing_result)
    (block : list processing_result) : Prop :=
  block = [result] \/
  exists e, block = [result; failed file_path (py "Processing error: " ++ e)].






(* ------------------------------------------------------------------ *)
(** ** SHA-256 ([hashlib.sha256]) over a list of bytes *)

Module Sha256.
Local Open Scope Z_scope.

Definition mask32 (x : Z) : Z := Z.land x 0xffffffff.
Definition rotr (x n : Z) : Z := Z.lor (Z.shiftr x n) (mask32 (Z.shiftl x (32 - n))).
Definition ch (x y z : Z) : Z := Z.lxor (Z.land x y) (Z.land (Z.lxor x 0xffffffff) z).
Definition maj (x y z : Z) : Z := Z.lxor (Z.lxor (Z.land x y) (Z.land x z)) (Z.land y z).
Definition bsig0 (x : Z) : Z := Z.lxor (Z.lxor (rotr x 2) (rotr x 13)) (rotr x 22).
Definition bsig1 (x : Z) : Z := Z.lxor (Z.lxor (rotr x 6) (rotr x 11)) (rotr x 25).
Definition ssig0 (x : Z) : Z := Z.lxor (Z.lxor (rotr x 7) (rotr x 18)) (Z.shiftr x 3).
Definition ssig1 (x : Z) : Z := Z.lxor (Z.lxor (rotr x 17) (rotr x 19)) (Z.shiftr x 10).

(** The first [n] primes, by trial division. *)
Definition is_prime (p : Z) : bool :=
  forallb (fun d => negb (p mod d =? 0)) (map Z.of_nat (seq 2 (Z.to_nat p - 2))).

Definition first_primes (n : nat) : list Z :=
  take n (filter (fun p => is_prime p = true) (map Z.of_nat (seq 2 400))).

(** The integer cube root, found bit by bit from bit [k - 1] down. *)
Fixpoint cbrt_bits (k : nat) (x n : Z) : Z :=
  match k with
  | O => x
  | S k' => let y := x + 2 ^ Z.of_nat k' in cbrt_bits k' (if y * y * y <=? n then y else x) n
  end.

(** The round constants: the first 32 bits of the fractional parts of the
    cube roots of the first 64 primes. *)
Definition K : list Z :=
  map (fun p => mask32 (cbrt_bits 40 0 (p * 2 ^ 96))) (first_primes 64).

(** The initial hash value: the first 32 bits of the fractional parts of
    the square roots of the first 8 primes. *)
Definition H0_words : list Z := map (fun p => mask32 (Z.sqrt (p * 2 ^ 64))) (first_primes 8).

Record hstate := HS { ha : Z; hb : Z; hc : Z; hd : Z; he : Z; hf : Z; hg : Z; hh : Z }.

Definition H0 : hstate :=
  HS (nth 0 H0_words 0) (nth 1 H0_words 0) (nth 2 H0_words 0) (nth 3 H0_words 0)
     (nth 4 H0_words 0) (nth 5 H0_words 0) (nth 6 H0_words 0) (nth 7 H0_words 0).

(** The first [n] big-endian 32-bit words of a byte list. *)
Fixpoint be_words (bs : list Z) (n : nat) : list Z :=
  match n with
  | O => []
  | S n' =>
      (nth 0 bs 0 * 2^24 + nth 1 bs 0 * 2^16 + nth 2 bs 0 * 2^8 + nth 3 bs 0)
        :: be_words (drop 4 bs) n'
  end.

(** The message schedule: [n] more words after the ones in [w]. *)
Fixpoint schedule (n : nat) (w : list Z) : list Z :=
  match n with
  | O => w
  | S n' =>
      let t := length w in
      schedule n' (w ++ [mask32 (ssig1 (nth (t - 2)%nat w 0) + nth (t - 7)%nat w 0
                                 + ssig0 (nth (t - 15)%nat w 0) + nth (t - 16)%nat w 0)])
  end.

Definition round (s : hstate) (kw : Z * Z) : hstate :=
  let t1 := mask32 (hh s + bsig1 (he s) + ch (he s) (hf s) (hg s) + kw.1 + kw.2) in
  let t2 := mask32 (bsig0 (ha s) + maj (ha s) (hb s) (hc s)) in
  HS (mask32 (t1 + t2)) (ha s) (hb s) (hc s) (mask32 (hd s + t1)) (he s) (hf s) (hg s).

Definition compress (h : hstate) (block : list Z) : hstate :=
  let w := schedule 48 (be_words block 16) in
  let s := fold_left round (zip K w) h in
  HS (mask32 (ha h + ha s)) (mask32 (hb h + hb s)) (mask32 (hc h + hc s))
     (mask32 (hd h + hd s)) (mask32 (he h + he s)) (mask32 (hf h + hf s))
     (mask32 (hg h + hg s)) (mask32 (hh h + hh s)).

Fixpoint blocks (n : nat) (h : hstate) (msg : list Z) : hstate :=
  match n with
  | O => h
  | S n' => blocks n' (compress h (take 64 msg)) (drop 64 msg)
  end.

Definition be_bytes (k : nat) (x : Z) : list Z :=
  map (fun i => Z.land (Z.shiftr x (8 * Z.of_nat (k - 1 - i))) 255) (seq 0 k).

Definition pad (msg : list Z) : list Z :=
  let l := Z.of_nat (length msg) in
  msg ++ [0x80] ++ repeat 0 (Z.to_nat ((55 - l) mod 64)) ++ be_bytes 8 (8 * l).

Definition sha256 (msg : list Z) : list Z :=
  let p := pad msg in
  let h := blocks (length p / 64) H0 p in
  mjoin (map (be_bytes 4) [ha h; hb h; hc h; hd h; he h; hf h; hg h; hh h]).

Definition hex_digit (d : Z) : Z := if d <? 10 then 48 + d else 87 + d.

(** [.hexdigest()]: two lowercase hex characters per byte. *)
Definition hexdigest (bs : list Z) : pystr :=
  mjoin (map (fun b => [hex_digit (Z.shiftr b 4); hex_digit (Z.land b 15)]) bs).

End Sha256.

(** [str.encode("utf-8")]: fails on a lone surrogate. *)
Definition utf8_encode_char (c : Z) : option (list Z) :=
  if (c <? 0)%Z then None
  else if (c <? 0x80)%Z then Some [c]
  else if (c <? 0x800)%Z then
    Some [Z.lor 0xc0 (Z.shiftr c 6); Z.lor 0x80 (Z.land c 0x3f)]%Z
  else if (0xd800 <=? c)%Z && (c <=? 0xdfff)%Z then None
  else if (c <? 0x10000)%Z then
    Some [Z.lor 0xe0 (Z.shiftr c 12); Z.lor 0x80 (Z.land (Z.shiftr c 6) 0x3f);
          Z.lor 0x80 (Z.land c 0x3f)]%Z
  else if (c <? 0x110000)%Z then
    Some [Z.lor 0xf0 (Z.shiftr c 18); Z.lor 0x80 (Z.land (Z.shiftr c 12) 0x3f);
          Z.lor 0x80 (Z.land (Z.shiftr c 6) 0x3f); Z.lor 0x80 (Z.land c 0x3f)]%Z
  else None.

Fixpoint utf8_encode (s : pystr) : option (list Z) :=
  match s with
  | [] => Some []
  | c :: s' =>
      match utf8_encode_char c, utf8_encode s' with
      | Some b, Some bs => Some (b ++ bs)
      | _, _ => None
      end
  end.

(* ------------------------------------------------------------------ *)
(** ** [posixpath] *)

Definition slash : Z := 47.
Definition dot : Z := 46.
Definition underscore : Z := 95.

(** [s.rfind(chr(c))], [-1] when absent. *)
Fixpoint rfind_from (c : Z) (s : pystr) (i best : Z) : Z :=
  match s with
  | [] => best
  | x :: s' => rfind_from c s' (i + 1)%Z (if Z.eqb x c then i else best)
  end.

Definition py_rfind_char (c : Z) (s : pystr) : Z := rfind_from c s 0 (-1).

Fixpoint lstrip_char (c : Z) (s : pystr) : pystr :=
  match s with
  | x :: s' => if Z.eqb x c then lstrip_char c s' else s
  | [] => []
  end.

Definition rstrip_char (c : Z) (s : pystr) : pystr := reverse (lstrip_char c (reverse s)).

Definition starts_with_slash (s : pystr) : bool :=
  match s with x :: _ => Z.eqb x slash | [] => false end.

(** [os.path.basename] *)
Definition os_path_basename (p : pystr) : pystr :=
  drop (Z.to_nat (py_rfind_char slash p + 1)) p.

(** [os.path.dirname] *)
Definition os_path_dirname (p : pystr) : pystr :=
  let head := take (Z.to_nat (py_rfind_char slash p + 1)) p in
  if negb (bool_decide (head = [])) && negb (forallb (Z.eqb slash) head)
  then rstrip_char slash head else head.

(** [os.path.join(a, b)] *)
Definition os_path_join (a b : pystr) : pystr :=
  if starts_with_slash b then b
  else if bool_decide (a = []) || bool_decide (last a = Some slash) then a ++ b
  else a ++ [slash] ++ b.

(** [os.path.splitext]: the [while] loop over the leading dots of the file
    name returns at the first character that is not a dot. *)
Definition os_path_splitext (p : pystr) : pystr * pystr :=
  let sepIndex := py_rfind_char slash p in
  let dotIndex := py_rfind_char dot p in
  if (sepIndex <? dotIndex)%Z then
    let filename_start := Z.to_nat (sepIndex + 1) in
    if existsb (fun c => negb (Z.eqb c dot))
         (take (Z.to_nat dotIndex - filename_start) (drop filename_start p))
    then (take (Z.to_nat dotIndex) p, drop (Z.to_nat dotIndex) p)
    else (p, [])
  else (p, []).

(** [s.split("/")] *)
Fixpoint split_slash_aux (cur : pystr) (s : pystr) : list pystr :=
  match s with
  | [] => [reverse cur]
  | x :: s' =>
      if Z.eqb x slash then reverse cur :: split_slash_aux [] s'
      else split_slash_aux (x :: cur) s'
  end.

Definition split_slash (s : pystr) : list pystr := split_slash_aux [] s.

(** ["/".join(comps)] *)
Fixpoint join_slash (comps : list pystr) : pystr :=
  match comps with
  | [] => []
  | [c] => c
  | c :: cs => c ++ [slash] ++ join_slash cs
  end.

(** The component loop of [normpath]; [new_comps] is kept in order. *)
Fixpoint normpath_loop (initial_slashes : nat) (comps new_comps : list pystr) : list pystr :=
  match comps with
  | [] => new_comps
  | comp :: rest =>
      if bool_decide (comp = []) || bool_decide (comp = py ".") then
        normpath_loop initial_slashes rest new_comps
      else if negb (bool_decide (comp = py ".."))
              || (bool_decide (initial_slashes = 0) && bool_decide (new_comps = []))
              || bool_decide (last new_comps = Some (py ".."))
      then normpath_loop initial_slashes rest (new_comps ++ [comp])
      else if bool_decide (new_comps = []) then normpath_loop initial_slashes rest new_comps
      else normpath_loop initial_slashes rest (removelast new_comps)
  end.

(** [os.path.normpath] *)
Definition os_path_normpath (path : pystr) : pystr :=
  if bool_decide (path = []) then py "." else
  let initial_slashes :=
    if starts_with_slash path then
      if is_prefix (py "//") path && negb (is_prefix (py "///") path) then 2 else 1
    else 0 in
  let comps := normpath_loop initial_slashes (split_slash path) [] in
  let path := repeat slash initial_slashes ++ join_slash comps in
  if bool_decide (path = []) then py "." else path.

(** [os.path.abspath] in the working directory [cwd]. *)
Definition os_path_abspath (cwd path : pystr) : pystr :=
  os_path_normpath (if starts_with_slash path then path else os_path_join cwd path).

(** The class [[0-9A-Za-z_一-鿿]]. *)
Definition hint_char (c : Z) : bool :=
  (((48 <=? c) && (c <=? 57)) || ((65 <=? c) && (c <=? 90)) || ((97 <=? c) && (c <=? 122))
  || Z.eqb c underscore || ((0x4e00 <=? c) && (c <=? 0x9fff)))%Z.

(** [re.sub(r"[^...]+", "_", s)]: each maximal run of other characters
    becomes one underscore; [in_run] says the previous character was in
    such a run. *)
Fixpoint sub_non_hint (in_run : bool) (s : pystr) : pystr :=
  match s with
  | [] => []
  | c :: s' =>
      if hint_char c then c :: sub_non_hint false s'
      else if in_run then sub_non_hint true s'
      else underscore :: sub_non_hint true s'
  end.

(** The parent-directory hint of [create_backup]. *)
Definition parent_hint (doc_path : pystr) : pystr :=
  let parent_dir := os_path_basename (os_path_dirname doc_path) in
  let parent_dir := if bool_decide (parent_dir = []) then py "_root_" else parent_dir in
  let parent_dir := rstrip_char underscore (lstrip_char underscore (sub_non_hint false parent_dir)) in
  let parent_dir := if bool_decide (parent_dir = []) then py "_root_" else parent_dir in
  take 20 parent_dir.

(** [hashlib.sha256(s.encode("utf-8")).hexdigest()[:6]]; [None] when the
    encoding raises. *)
Definition path_hash6 (s : pystr) : option pystr :=
  (fun b => take 6 (Sha256.hexdigest (Sha256.sha256 b))) <$> utf8_encode s.

(* ------------------------------------------------------------------ *)
(** ** The file system and [create_backup] *)

(** Files by path with their bytes, directories, the working directory, and
    the source of [uuid.uuid4().hex]: [w_uuid n] is the [n]-th draw. *)
Record world := mkWorld {
  w_files : gmap pystr (list Z);
  w_dirs : gset pystr;
  w_cwd : pystr;
  w_uuid : nat -> pystr;
  w_draws : nat
}.

Definition set_files (f : gmap pystr (list Z)) (w : world) : world :=
  mkWorld f (w_dirs w) (w_cwd w) (w_uuid w) (w_draws w).
Definition set_dirs (d : gset pystr) (w : world) : world :=
  mkWorld (w_files w) d (w_cwd w) (w_uuid w) (w_draws w).
Definition set_draws (n : nat) (w : world) : world :=
  mkWorld (w_files w) (w_dirs w) (w_cwd w) (w_uuid w) n.

Inductive py_exc :=
  | FileNotFoundError
  | FileExistsError
  | IsADirectoryError
  | UnicodeEncodeError
  | RuntimeError (msg : pystr).

Definition is_oserror (e : py_exc) : bool :=
  match e with
  | FileNotFoundError | FileExistsError | IsADirectoryError => true
  | _ => false
  end.

(** State and exceptions. *)
Definition M (A : Type) : Type := world -> (py_exc + A) * world.

Definition retM {A} (a : A) : M A := fun w => (inr a, w).

Definition bindM {A B} (m : M A) (k : A -> M B) : M B :=
  fun w =>
    match m w with
    | (inl e, w') => (inl e, w')
    | (inr a, w') => k a w'
    end.

Notation "'let!' x ':=' m 'in' k" := (bindM m (fun x => k))
  (at level 200, x name, m at level 100, k at level 200).

Definition raise {A} (e : py_exc) : M A := fun w => (inl e, w).

(** [try: body except ...]: [handler e] is [None] for an exception the
    [except] clauses do not catch. *)
Definition try_except {A} (body : M A) (handler : py_exc -> option (M A)) : M A :=
  fun w =>
    match body w with
    | (inl e, w') => match handler e with Some h => h w' | None => (inl e, w') end
    | r => r
    end.

(** [try: body finally: cleanup] *)
Definition try_finally {A} (body : M A) (cleanup : M unit) : M A :=
  fun w =>
    let '(r, w1) := body w in
    match cleanup w1 with
    | (inl e, w2) => (inl e, w2)
    | (inr _, w2) => (r, w2)
    end.

Definition os_path_exists (p : pystr) : M bool :=
  fun w => (inr (bool_decide (is_Some (w_files w !! p)) || bool_decide (p ∈ w_dirs w)), w).

Definition os_remove (p : pystr) : M unit :=
  fun w =>
    match w_files w !! p with
    | Some _ => (inr tt, set_files (delete p (w_files w)) w)
    | None => (inl (if bool_decide (p ∈ w_dirs w) then IsADirectoryError else FileNotFoundError), w)
    end.

(** [try: os.remove(p) except OSError: pass] *)
Definition remove_quietly (p : pystr) : M unit :=
  try_except (os_remove p) (fun e => if is_oserror e then Some (retM tt) else None).

(** [os.makedirs(d, exist_ok=True)]; the missing ancestors are not
    recorded. *)
Definition os_makedirs (d : pystr) : M unit :=
  fun w =>
    if bool_decide (d = []) then (inl FileNotFoundError, w)
    else if bool_decide (is_Some (w_files w !! d)) then (inl FileExistsError, w)
    else (inr tt, set_dirs ({[d]} ∪ w_dirs w) w).

(** [shutil.copy2(src, dst)]: into [dst] itself, or into the directory
    [dst] under the source's name. *)
Definition shutil_copy2 (src dst : pystr) : M unit :=
  fun w =>
    match w_files w !! src with
    | None => (inl (if bool_decide (src ∈ w_dirs w) then IsADirectoryError else FileNotFoundError), w)
    | Some c =>
        let dst := if bool_decide (dst ∈ w_dirs w) then os_path_join dst (os_path_basename src)
                   else dst in
        (inr tt, set_files (<[dst := c]> (w_files w)) w)
    end.

(** [os.replace(src, dst)]: renames, replacing a file already at [dst]. *)
Definition os_replace (src dst : pystr) : M unit :=
  fun w =>
    match w_files w !! src with
    | None => (inl FileNotFoundError, w)
    | Some c =>
        if bool_decide (dst ∈ w_dirs w) then (inl IsADirectoryError, w)
        else (inr tt, set_files (<[dst := c]> (delete src (w_files w))) w)
    end.

(** [uuid.uuid4().hex[:8]] *)
Definition uuid4_hex8 : M pystr :=
  fun w => (inr (take 8 (w_uuid w (w_draws w))), set_draws (S (w_draws w)) w).

Definition getcwd : M pystr := fun w => (inr (w_cwd w), w).

Inductive attempt_outcome := Finished (backup_path : pystr) | Collision.

(** The name of the backup for the random suffix [uid8]. *)
Definition backup_name_of (name parent_dir hash6 uid8 ext : pystr) : pystr :=
  name ++ py "_backup_" ++ parent_dir ++ py "_" ++ hash6 ++ py "_" ++ uid8 ++ ext.

(** One iteration of the [for _ in range(50)] loop: [Finished] for
    [return backup_path], [Collision] for [continue]. *)
Definition backup_attempt (doc_path backup_dir name ext parent_dir hash6 : pystr)
    : M attempt_outcome :=
  let! uid8 := uuid4_hex8 in
  let backup_name := backup_name_of name parent_dir hash6 uid8 ext in
  let backup_path := os_path_join backup_dir backup_name in
  let tmp_name := py "." ++ backup_name ++ py ".tmp" in
  let tmp_path := os_path_join backup_dir tmp_name in
  try_finally
    (let! e := os_path_exists tmp_path in
     let! _ := (if e then remove_quietly tmp_path else retM tt) in
     let! _ := shutil_copy2 doc_path tmp_path in
     try_except
       (let! _ := os_replace tmp_path backup_path in retM (Finished backup_path))
       (fun ex => match ex with
                  | FileExistsError =>
                      Some (let! _ := remove_quietly tmp_path in retM Collision)
                  | _ => None
                  end))
    (let! e := os_path_exists tmp_path in if e then remove_quietly tmp_path else retM tt).

Fixpoint backup_attempts (n : nat) (doc_path backup_dir name ext parent_dir hash6 : pystr)
    : M pystr :=
  match n with
  | O => raise (RuntimeError (py "Failed to create unique backup in " ++ backup_dir))
  | S n' =>
      let! r := backup_attempt doc_path backup_dir name ext parent_dir hash6 in
      match r with
      | Finished p => retM p
      | Collision => backup_attempts n' doc_path backup_dir name ext parent_dir hash6
      end
  end.

(** [DocxProcessor(doc_path).create_backup(backup_dir)]; the assignment to
    [self.backup_path] is not modelled. *)
Definition create_backup (doc_path : pystr) (backup_dir : option pystr) : M pystr :=
  let backup_dir := match backup_dir with Some d => d | None => os_path_dirname doc_path end in
  let! _ := os_makedirs backup_dir in
  let original_name := os_path_basename doc_path in
  let '(name, ext) := os_path_splitext original_name in
  let parent_dir := parent_hint doc_path in
  let! cwd := getcwd in
  match path_hash6 (os_path_abspath cwd doc_path) with
  | None => raise UnicodeEncodeError
  | Some hash6 => backup_attempts 50 doc_path backup_dir name ext parent_dir hash6
  end.

(** The backup path and the temporary path of the first attempt of
    [create_backup doc_path (Some backup_dir)] from world [w], given the
    fingerprint [hash6]. *)
Definition first_backup_name (doc_path : pystr) (w : world) (hash6 : pystr) : pystr :=
  let '(name, ext) := os_path_splitext (os_path_basename doc_path) in
  backup_name_of name (parent_hint doc_path) hash6 (take 8 (w_uuid w (w_draws w))) ext.

Definition first_backup_path (doc_path backup_dir : pystr) (w : world) (hash6 : pystr) : pystr :=
  os_path_join backup_dir (first_backup_name doc_path w hash6).

Definition first_tmp_path (doc_path backup_dir : pystr) (w : world) (hash6 : pystr) : pystr :=
  os_path_join backup_dir (py "." ++ first_backup_name doc_path w hash6 ++ py ".tmp").

(** Version-4 UUIDs whose hex forms all begin with [0123abcd] and differ
    in their last twelve digits. *)
Definition sample_uuid (n : nat) : pystr :=
  py "0123abcd89ef4a1b8c2d" ++ repeat (Sha256.hex_digit (Z.of_nat (n mod 16))) 12.

(** [/data/report.docx] and a directory [/backups] that already holds a
    file under the name the first backup attempt generates. *)
Definition occupied_world : world :=
  mkWorld (<[py "/backups/report_backup_data_c03e26_0123abcd.docx" := py "old"]>
             (<[py "/data/report.docx" := py "new"]> ∅))
          {[py "/data"; py "/backups"]} (py "/") sample_uuid 0.

(** Two sources named [report.docx] in different directories, whose
    absolute paths share their first six SHA-256 hex digits ([124197]). *)
Definition twin_world : world :=
  mkWorld (<[py "/d4186/dept/report.docx" := py "A"]>
             (<[py "/d10730/dept/report.docx" := py "B"]> ∅))
          {[py "/d4186/dept"; py "/d10730/dept"; py "/backups"]} (py "/") sample_uuid 0.

(** Fonts used by the concrete inputs below. *)
Definition plain : font := mkFont None None None None None None None None None None.

Definition arial_bold : font :=
  mkFont (Some (py "Arial")) (Some 152400%Z) (Some true) None (Some 0%Z) (Some 16711680%Z)
    None (Some false) None None.

(* ------------------------------------------------------------------ *)
(** ** Facts about the string and run helpers *)

(** The text of the runs before run [k]. *)
Definition pre (rs : list run) (k : nat) : nat := length (para_text (take k rs)).

(** A run whose text is set to [""]. *)
Definition cleared (r : run) : run := set_text r [].

(* ------------------------------------------------------------------ *)
(** ** More of the Python builtins the code calls *)

(** [str.isspace] on one character: the separators of [str.split()]. *)
Definition py_isspace (c : Z) : bool :=
  (((9 <=? c) && (c <=? 13)) || ((28 <=? c) && (c <=? 32)) || Z.eqb c 0x85
   || Z.eqb c 0xa0 || Z.eqb c 0x1680 || ((0x2000 <=? c) && (c <=? 0x200a))
   || Z.eqb c 0x2028 || Z.eqb c 0x2029 || Z.eqb c 0x202f || Z.eqb c 0x205f
   || Z.eqb c 0x3000)%Z.

(** [s.split()]: the maximal runs of non-space characters; [cur] is the
    current word, reversed. *)
Fixpoint split_ws_aux (cur : pystr) (s : pystr) : list pystr :=
  match s with
  | [] => match cur with [] => [] | _ :: _ => [reverse cur] end
  | c :: s' =>
      if py_isspace c then
        match cur with
        | [] => split_ws_aux [] s'
        | _ :: _ => reverse cur :: split_ws_aux [] s'
        end
      else split_ws_aux (c :: cur) s'
  end.

Definition py_split (s : pystr) : list pystr := split_ws_aux [] s.

(* ------------------------------------------------------------------ *)
(** ** The rest of [DocxProcessor] *)

(** A document with every run's text set to [""]: what is left is the
    shape (paragraphs, runs, tables, rows, cells) and the fonts. *)
Fixpoint erase_table (t : table) : table :=
  match t with
  | Table rows => Table (map (map erase_cell) rows)
  end
with erase_cell (c : cell) : cell :=
  match c with
  | Cell ps ts => Cell (map (map cleared) ps) (map erase_table ts)
  end.

Definition erase_doc (d : document) : document :=
  mkDocument (map (map cleared) (paragraphs d)) (map erase_table (tables d)).

(** The attributes of a [DocxProcessor] the methods below read and
    write; [p_doc] is [self.doc] ([None] until [load()]). *)
Record processor := mkProcessor {
  p_doc_path : pystr;
  p_doc : option document;
  p_backup_path : option pystr;
  p_replacement_count : nat
}.

(** [self.replace_text(search_text, replace_text)]: [self.doc] is
    updated in place and [self.replacement_count] set to the count. *)
Definition proc_replace_text (fuel : nat) (st : processor) (search_text replace_text0 : pystr)
    : option (processor * nat) :=
  match p_doc st with
  | None => Some (st, 0)
  | Some d =>
      match replace_text fuel (Some d) search_text replace_text0 with
      | Some (Some d', n) =>
          Some (mkProcessor (p_doc_path st) (Some d') (p_backup_path st) n, n)
      | _ => None
      end
  end.

(** The [for search_text, replace_text in replacements] loop of
    [replace_multiple]. *)
Fixpoint replace_pairs (fuel : nat) (st : processor) (replacements : list (pystr * pystr))
    (total : nat) : option (processor * nat) :=
  match replacements with
  | [] => Some (st, total)
  | (s, r) :: rest =>
      match proc_replace_text fuel st s r with
      | None => None
      | Some (st', count) => replace_pairs fuel st' rest (total + count)
      end
  end.

(** [replace_multiple] (without the progress callback) *)
Definition replace_multiple (fuel : nat) (st : processor) (replacements : list (pystr * pystr))
    : option (processor * nat) :=
  match p_doc st with
  | None => Some (st, 0)
  | Some _ => replace_pairs fuel st replacements 0
  end.

(** The dict of [get_statistics]; [None] is [{}]. *)
Record statistics := mkStatistics {
  paragraph_count : nat;
  table_count : nat;
  character_count : nat;
  word_count : nat;
  stat_replacement_count : nat;
  cell_count : nat
}.

Definition get_statistics (st : processor) : option statistics :=
  match p_doc st with
  | None => None
  | Some d =>
      Some (mkStatistics
              (length (paragraphs d))
              (length (tables d))
              (sum_list ((fun p => length (para_text p)) <$> paragraphs d))
              (sum_list ((fun p => length (py_split (para_text p))) <$> paragraphs d))
              (p_replacement_count st)
              (sum_list ((fun t => match t with Table rows => sum_list (length <$> rows) end)
                           <$> tables d)))
  end.

(** [Document(path)] inside [load()]: [parses] says which byte strings
    python-docx opens; a missing file raises, and [load] answers
    [False]. *)
Definition load_doc (parses : list Z -> bool) (p : pystr) : M bool :=
  fun w => match w_files w !! p with
           | Some c => (inr (parses c), w)
           | None => (inr false, w)
           end.

(** [restore_backup], given [self.backup_path] ([None] or a string). *)
Definition restore_backup (parses : list Z -> bool) (doc_path : pystr)
    (backup_path : option pystr) : M bool :=
  match backup_path with
  | None | Some [] => retM false
  | Some bp =>
      let! e := os_path_exists bp in
      if negb e then retM false
      else try_except (let! _ := shutil_copy2 bp doc_path in load_doc parses doc_path)
                      (fun _ => Some (retM false))
  end.

(* ------------------------------------------------------------------ *)
(** ** The rest of [BatchProcessor] *)

(** [get_summary], without the float [success_rate]. *)
Record summary := mkSummary {
  total_files : nat;
  successful : nat;
  failed_count : nat;
  total_replacements : nat
}.

Definition get_summary (results : list processing_result) : summary :=
  let total := length results in
  let successful := length (filter (fun r => res_success r = true) results) in
  mkSummary total successful (total - successful)
    (sum_list (res_replacements <$> results)).

Definition get_failed_results (results : list processing_result) : list processing_result :=
  filter (fun r => res_success r = false) results.

Definition get_successful_results (results : list processing_result) : list processing_result :=
  filter (fun r => res_success r = true) results.

Section TextFacts.

Lemma para_text_cons r rs : para_text (r :: rs) = r_text r ++ para_text rs.
Proof. reflexivity. Qed.

Lemma para_text_app xs ys : para_text (xs ++ ys) = para_text xs ++ para_text ys.
Proof. unfold para_text. by rewrite map_app, join_app. Qed.

Lemma para_text_cleared xs : para_text (map cleared xs) = [].
Proof. induction xs as [|x xs IH]; [done|]. simpl. rewrite para_text_cons. exact IH. Qed.

Lemma pre_0 rs : pre rs 0 = 0.
Proof. reflexivity. Qed.

Lemma pre_cons_S r rs k : pre (r :: rs) (S k) = length (r_text r) + pre rs k.
Proof. unfold pre. simpl. rewrite para_text_cons, length_app. done. Qed.

Lemma pre_S_lookup rs k r :
  rs !! k = Some r -> pre rs (S k) = pre rs k + length (r_text r).
Proof.
  intros Hk. unfold pre. rewrite (take_S_r _ _ _ Hk), para_text_app, length_app.
  rewrite para_text_cons, length_app. simpl. lia.
Qed.

Lemma para_text_split rs k r :
  rs !! k = Some r ->
  para_text rs = para_text (take k rs) ++ r_text r ++ para_text (drop (S k) rs).
Proof.
  intros Hk. rewrite <- (take_drop_middle rs k r Hk) at 1.
  rewrite para_text_app, para_text_cons. done.
Qed.

Lemma is_prefix_length sub t : is_prefix sub t = true -> length sub <= length t.
Proof.
  revert t. induction sub as [|c sub IH]; intros [|d t]; simpl; try lia; try done.
  intros H. apply andb_prop in H as [_ H]. apply IH in H. lia.
Qed.

Lemma find_aux_bounds t sub i m :
  find_aux t sub i = Some m -> i <= m /\ m + length sub <= i + length t.
Proof.
  revert i. induction t as [|d t IH]; intros i; simpl.
  - destruct (is_prefix sub []) eqn:E; intros H; inversion H; subst.
    apply is_prefix_length in E. simpl in E. lia.
  - destruct (is_prefix sub (d :: t)) eqn:E; intros H.
    + inversion H; subst. apply is_prefix_length in E. simpl in E. lia.
    + apply IH in H. lia.
Qed.

Lemma py_find_bounds t sub c m :
  py_find t sub c = Some m -> c <= m /\ m + length sub <= length t.
Proof.
  unfold py_find. destruct (Nat.ltb_spec (length t) c) as [_|Hc]; [discriminate|].
  intros H. apply find_aux_bounds in H. rewrite length_drop in H. lia.
Qed.

Lemma py_find_empty t c : c <= length t -> py_find t [] c = Some c.
Proof.
  intros Hc. unfold py_find. destruct (Nat.ltb_spec (length t) c); [lia|].
  destruct (drop c t); reflexivity.
Qed.

(** [locate] once the start run is known. *)
Lemma locate_started rs idx cur sp ep x st' j eo :
  locate rs idx cur sp ep (Some x) = (st', Some (j, eo)) -> cur < ep ->
  st' = Some x /\ exists k, j = idx + k /\ k < length rs /\
    cur + pre rs k < ep <= cur + pre rs (S k) /\ eo = ep - (cur + pre rs k).
Proof.
  revert idx cur. induction rs as [|r rs IH]; intros idx cur Hl Hc; simpl in Hl.
  - discriminate.
  - destruct (Nat.leb_spec ep (cur + length (r_text r))) as [He|He].
    + inversion Hl; subst. split; [done|]. exists 0.
      rewrite pre_cons_S, !pre_0. simpl. lia.
    + destruct (IH _ _ Hl ltac:(lia)) as [-> (k & -> & Hk & Hb & ->)].
      split; [done|]. exists (S k). rewrite !pre_cons_S. simpl. lia.
Qed.

(** [locate] from the first run: the start run holds the start position,
    the end run the end position, and the start run comes first. *)
Lemma locate_fresh rs idx cur sp ep i so j eo :
  locate rs idx cur sp ep None = (Some (i, so), Some (j, eo)) ->
  cur <= sp -> sp < ep ->
  exists ki kj, i = idx + ki /\ j = idx + kj /\ ki <= kj /\ kj < length rs /\
    cur + pre rs ki <= sp < cur + pre rs (S ki) /\ so = sp - (cur + pre rs ki) /\
    cur + pre rs kj < ep <= cur + pre rs (S kj) /\ eo = ep - (cur + pre rs kj).
Proof.
  revert idx cur. induction rs as [|r rs IH]; intros idx cur Hl Hc Hse; simpl in Hl.
  - discriminate.
  - destruct (Nat.ltb_spec sp (cur + length (r_text r))) as [Hs|Hs];
      destruct (Nat.leb_spec ep (cur + length (r_text r))) as [He|He].
    + inversion Hl; subst. exists 0, 0.
      rewrite pre_cons_S, !pre_0. simpl. lia.
    + destruct (locate_started _ _ _ _ _ _ _ _ _ Hl ltac:(lia))
        as [Hx (k & -> & Hk & Hb & ->)].
      inversion Hx; subst. exists 0, (S k).
      rewrite !pre_cons_S, !pre_0. simpl. lia.
    + lia.
    + destruct (IH _ _ Hl ltac:(lia) Hse)
        as (ki & kj & -> & -> & Hij & Hkj & Hs1 & -> & He1 & ->).
      exists (S ki), (S kj). rewrite !pre_cons_S. simpl. lia.
Qed.

Lemma clear_at_app xs ys k : clear_at (length xs + k) (xs ++ ys) = xs ++ clear_at k ys.
Proof.
  unfold clear_at. rewrite lookup_app_r by lia.
  replace (length xs + k - length xs) with k by lia.
  destruct (ys !! k); [by rewrite insert_app_r | done].
Qed.

Lemma clear_runs_app xs ys k n :
  clear_runs (length xs + k) n (xs ++ ys) = xs ++ clear_runs k n ys.
Proof.
  revert k ys. induction n as [|n IH]; intros k ys; simpl; [done|].
  rewrite clear_at_app. replace (S (length xs + k)) with (length xs + S k) by lia.
  apply IH.
Qed.

Lemma clear_runs_nil lo n : clear_runs lo n [] = [].
Proof. revert lo. induction n as [|n IH]; intros lo; simpl; [done|]. apply IH. Qed.

Lemma clear_runs_0 n ys : clear_runs 0 n ys = map cleared (take n ys) ++ drop n ys.
Proof.
  revert ys. induction n as [|n IH]; intros [|y ys]; try done.
  - apply clear_runs_nil.
  - cbn [clear_runs].
    replace (clear_at 0 (y :: ys)) with ([cleared y] ++ ys) by reflexivity.
    pose proof (clear_runs_app [cleared y] ys 0 n) as H.
    change (length [cleared y] + 0) with 1 in H.
    rewrite H, IH. done.
Qed.

End TextFacts.

Section StepFacts.

(** The runs after one replacement step, as a splice of the old runs. *)
Lemma replace_step_spec rs s R c rs' c' :
  replace_step rs s R c = Some (rs', c') -> s <> [] ->
  exists m i so j eo ri rj,
    py_find (para_text rs) s c = Some m /\
    locate rs 0 0 m (m + length s) None = (Some (i, so), Some (j, eo)) /\
    rs !! i = Some ri /\ rs !! j = Some rj /\ i <= j /\
    pre rs i <= m < pre rs i + length (r_text ri) /\ so = m - pre rs i /\
    pre rs j < m + length s <= pre rs j + length (r_text rj) /\
    eo = m + length s - pre rs j /\
    c' = m + length R /\
    rs' = take i rs
          ++ apply_run_format (set_text ri (take so (r_text ri) ++ R ++ drop eo (r_text rj)))
               (capture_run_format ri)
          :: map cleared (take (j - i) (drop (S i) rs)) ++ drop (S j) rs.
Proof.
  intros Hstep Hs. unfold replace_step in Hstep.
  destruct (py_find (para_text rs) s c) as [m|] eqn:Hf; [|discriminate].
  destruct (locate rs 0 0 m (m + length s) None) as [[[i so]|] [[j eo]|]] eqn:Hl;
    try discriminate.
  destruct (rs !! i) as [ri|] eqn:Hi; [|discriminate].
  destruct (rs !! j) as [rj|] eqn:Hj; [|discriminate].
  injection Hstep as <- <-.
  assert (Hslen : 0 < length s) by (destruct s; [done|simpl; lia]).
  destruct (locate_fresh _ _ _ _ _ _ _ _ _ Hl ltac:(lia) ltac:(lia))
    as (ki & kj & -> & -> & Hij & Hkj & Hs1 & -> & He1 & ->).
  rewrite !Nat.add_0_l in *.
  pose proof Hs1 as Hs2. pose proof He1 as He2.
  rewrite (pre_S_lookup _ _ _ Hi) in Hs2. rewrite (pre_S_lookup _ _ _ Hj) in He2.
  exists m, ki, (m - pre rs ki), kj, (m + length s - pre rs kj), ri, rj.
  split_and!; try done; try lia.
  assert (Hki : ki < length rs) by (apply lookup_lt_Some in Hi; done).
  rewrite insert_take_drop by done.
  match goal with |- clear_runs _ _ (take ki rs ++ ?x :: ?d) = _ =>
    replace (take ki rs ++ x :: d) with ((take ki rs ++ [x]) ++ d)
      by (rewrite <- app_assoc; done);
    pose proof (clear_runs_app (take ki rs ++ [x]) d 0 (kj - ki)) as H
  end.
  rewrite length_app, length_take_le in H by lia. simpl in H.
  replace (ki + 1 + 0) with (S ki) in H by lia.
  rewrite H, clear_runs_0, drop_drop, <- app_assoc.
  replace (S ki + (kj - ki)) with (S kj) by lia. done.
Qed.

Lemma splice_lookup (rs : list run) i j x k :
  i <= j -> j < length rs ->
  (take i rs ++ x :: map cleared (take (j - i) (drop (S i) rs)) ++ drop (S j) rs) !! k =
  if decide (k = i) then Some x
  else if decide (i < k <= j) then cleared <$> rs !! k else rs !! k.
Proof.
  intros Hij Hj.
  destruct (decide (k < i)) as [Hk|Hk].
  - rewrite lookup_app_l by (rewrite length_take; lia).
    rewrite lookup_take_lt by done.
    repeat case_decide; try lia. done.
  - rewrite lookup_app_r by (rewrite length_take; lia).
    rewrite length_take, Nat.min_l by lia.
    destruct (k - i) as [|p] eqn:Ep.
    + case_decide; [done|lia].
    + simpl. destruct (decide (p < j - i)) as [Hp|Hp].
      * rewrite lookup_app_l by (rewrite length_map, length_take, length_drop; lia).
        rewrite list_lookup_fmap, lookup_take_lt, lookup_drop by done.
        repeat case_decide; try lia. do 2 f_equal. lia.
      * rewrite lookup_app_r by (rewrite length_map, length_take, length_drop; lia).
        rewrite length_map, length_take, length_drop, Nat.min_l by lia.
        rewrite lookup_drop. repeat case_decide; try lia. f_equal. lia.
Qed.

Lemma splice_length (rs : list run) i j x :
  i <= j -> j < length rs ->
  length (take i rs ++ x :: map cleared (take (j - i) (drop (S i) rs)) ++ drop (S j) rs)
  = length rs.
Proof.
  intros Hij Hj. rewrite length_app. simpl.
  rewrite length_app, length_map, !length_take, !length_drop. lia.
Qed.

(** The paragraph text after one step: the match replaced in place. *)
Lemma replace_step_text rs s R c rs' c' :
  replace_step rs s R c = Some (rs', c') -> s <> [] ->
  exists m, py_find (para_text rs) s c = Some m /\ c' = m + length R /\
    para_text rs' = take m (para_text rs) ++ R ++ drop (m + length s) (para_text rs).
Proof.
  intros Hstep Hs.
  destruct (replace_step_spec _ _ _ _ _ _ Hstep Hs)
    as (m & i & so & j & eo & ri & rj & Hf & _ & Hi & Hj & Hij & Hb1 & -> & Hb2 & -> & -> & ->).
  exists m. split_and!; [done|done|].
  rewrite para_text_app, para_text_cons, para_text_app, para_text_cleared. simpl.
  rewrite (para_text_split rs i ri Hi) at 1.
  rewrite (para_text_split rs j rj Hj).
  unfold pre in *.
  remember (para_text (take i rs)) as X eqn:HX.
  remember (para_text (take j rs)) as X' eqn:HX'.
  rewrite (take_app X), (take_ge X), (take_app_le (r_text ri)) by lia.
  rewrite (drop_app X'), (drop_ge X'), (drop_app_le (r_text rj)) by lia.
  by rewrite <- !app_assoc.
Qed.

End StepFacts.

Section LoopFacts.

Lemma replace_step_measure rs s R c rs' c' :
  replace_step rs s R c = Some (rs', c') -> s <> [] ->
  exists m, c <= m /\ c' = m + length R /\
    length (para_text rs') - c' < length (para_text rs) - c.
Proof.
  intros Hstep Hs.
  destruct (replace_step_text _ _ _ _ _ _ Hstep Hs) as (m & Hf & -> & Ht).
  apply py_find_bounds in Hf as [Hcm Hm].
  assert (0 < length s) by (destruct s; [done|simpl; lia]).
  exists m. split_and!; [lia|done|].
  rewrite Ht, !length_app, length_take, length_drop. lia.
Qed.

Lemma replace_loop_some fuel rs s R c cnt :
  s <> [] -> length (para_text rs) - c < fuel ->
  exists rs' n, replace_loop fuel rs s R c cnt = Some (rs', n).
Proof.
  revert rs c cnt. induction fuel as [|fuel IH]; intros rs c cnt Hs Hf; [lia|].
  simpl. destruct (replace_step rs s R c) as [[rs1 c1]|] eqn:E.
  - destruct (replace_step_measure _ _ _ _ _ _ E Hs) as (m & _ & _ & Hlt).
    apply IH; [done|lia].
  - eauto.
Qed.

Lemma put_same {A} (o : option A) : put o o = o.
Proof. by destruct o. Qed.

Lemma put_truthy_str (o : option pystr) : put (if_truthy_str o) o = o.
Proof. by destruct o as [[|??]|]. Qed.

Lemma put_truthy_int (o : option Z) : put (if_truthy_int o) o = o.
Proof. destruct o as [z|]; [|done]. simpl. by destruct (Z.eqb z 0). Qed.

Lemma capture_apply_font r t :
  r_font (apply_run_format (set_text r t) (capture_run_format r)) = r_font r.
Proof.
  destruct r as [txt [n sz b it u col h st sb sp]]. cbn.
  by rewrite !put_same, put_truthy_str, !put_truthy_int.
Qed.

Lemma replace_loop_empty_search pfx x xs f rs R fuel cnt :
  replace_loop fuel (mkRun (pfx ++ x :: xs) f :: rs) [] R (length pfx) cnt = None.
Proof.
  revert pfx f cnt. induction fuel as [|fuel IH]; intros pfx f cnt; [done|].
  cbn [replace_loop]. unfold replace_step.
  rewrite py_find_empty
    by (rewrite para_text_cons; cbn [r_text]; rewrite !length_app; simpl; lia).
  cbn [locate length r_text].
  destruct (Nat.ltb_spec (length pfx) (0 + length (pfx ++ x :: xs))) as [_|Hn];
    [|rewrite length_app in Hn; simpl in Hn; lia].
  destruct (Nat.leb_spec (length pfx + 0) (0 + length (pfx ++ x :: xs))) as [_|Hn];
    [|rewrite length_app in Hn; simpl in Hn; lia].
  cbn. rewrite !Nat.sub_0_r, Nat.add_0_r, take_app_length, drop_app_length.
  replace (length pfx + length R) with (length (pfx ++ R)) by (rewrite length_app; done).
  rewrite (app_assoc pfx R (x :: xs)).
  apply IH.
Qed.

Lemma map_count_id {A} (f : A -> option (A * nat)) (xs : list A) :
  Forall (fun x => f x = Some (x, 0)) xs -> map_count f xs = Some (xs, 0).
Proof.
  induction 1 as [|x xs Hx _ IH]; [done|]. simpl. rewrite Hx, IH. done.
Qed.

Lemma replace_in_paragraph_absent fuel p s R :
  py_contains (para_text p) s = false -> replace_in_paragraph fuel p s R = Some (p, 0).
Proof. intros H. unfold replace_in_paragraph. rewrite H. done. Qed.

Lemma replace_in_table_absent fuel s R :
  forall t, (forall p, p ∈ table_paragraphs t -> py_contains (para_text p) s = false) ->
  replace_in_table fuel s R t = Some (t, 0).
Proof.
  apply (table_cell_ind
    (fun t => (forall p, p ∈ table_paragraphs t -> py_contains (para_text p) s = false) ->
              replace_in_table fuel s R t = Some (t, 0))
    (fun c => (forall p, p ∈ cell_paragraphs c -> py_contains (para_text p) s = false) ->
              replace_in_cell fuel s R c = Some (c, 0))).
  - intros rows Hrows H. simpl. rewrite map_count_id; [done|].
    rewrite Forall_forall in Hrows |- *. intros row Hrow.
    specialize (Hrows row Hrow). rewrite Forall_forall in Hrows.
    apply map_count_id. rewrite Forall_forall. intros c Hc.
    apply Hrows; [done|]. intros p Hp. apply H. simpl.
    apply list_elem_of_join. eexists. split; [|by apply list_elem_of_fmap_2, Hrow].
    apply list_elem_of_join. eexists. split; [exact Hp|by apply list_elem_of_fmap_2].
  - intros ps ts Hts H. simpl.
    rewrite map_count_id.
    2: { rewrite Forall_forall. intros p Hp. apply replace_in_paragraph_absent, H.
         simpl. apply elem_of_app. by left. }
    rewrite map_count_id; [done|].
    rewrite Forall_forall in Hts |- *. intros t Ht. apply Hts; [done|].
    intros p Hp. apply H. simpl. apply elem_of_app. right.
    apply list_elem_of_join. eexists. split; [exact Hp|by apply list_elem_of_fmap_2].
Qed.

End LoopFacts.

(* ================================================================== *)
(** * Claims about the replacement engine *)

(** C1: when the match found by one iteration of the loop of
    [_replace_in_paragraph] starts in run [i] and ends in run [j] with
    [i < j], the step keeps the number of runs, sets run [i]'s text to the
    part of run [i] before the match, then the replacement, then the part of
    run [j] after the match, and sets the text of runs [i+1..j] to the empty
    string, keeping those run objects (and their fonts); other runs are
    unchanged. *)
Theorem replace_step_spanning_runs rs search_text replace_text c rs' c' m i so j eo :
  search_text <> [] ->
  replace_step rs search_text replace_text c = Some (rs', c') ->
  py_find (para_text rs) search_text c = Some m ->
  locate rs 0 0 m (m + length search_text) None = (Some (i, so), Some (j, eo)) ->
  i < j ->
  length rs' = length rs /\
  (exists ri rj, rs !! i = Some ri /\ rs !! j = Some rj /\
     pre rs i <= m < pre rs i + length (r_text ri) /\ so = m - pre rs i /\
     pre rs j < m + length search_text <= pre rs j + length (r_text rj) /\
     eo = m + length search_text - pre rs j /\
     r_text <$> rs' !! i = Some (take so (r_text ri) ++ replace_text ++ drop eo (r_text rj))) /\
  (forall k, i < k <= j -> exists rk, rs !! k = Some rk /\ rs' !! k = Some (cleared rk)) /\
  (forall k, k < i \/ j < k -> rs' !! k = rs !! k).
Proof.
  intros Hs Hstep Hf Hl Hij.
  destruct (replace_step_spec _ _ _ _ _ _ Hstep Hs)
    as (m' & i' & so' & j' & eo' & ri & rj & Hf' & Hl' & Hi & Hj & _ & Hb1 & Hso
        & Hb2 & Heo & _ & ->).
  rewrite Hf in Hf'. injection Hf' as <-.
  rewrite Hl in Hl'. injection Hl' as <- <- <- <-.
  assert (Hjl : j < length rs) by (apply lookup_lt_Some in Hj; done).
  split_and!.
  - apply splice_length; lia.
  - exists ri, rj. split_and!; try done; try lia.
    rewrite splice_lookup by lia. rewrite decide_True by done. done.
  - intros k Hk. destruct (rs !! k) as [rk|] eqn:Hk'.
    2: { apply lookup_ge_None in Hk'. lia. }
    exists rk. split; [done|].
    rewrite splice_lookup by lia. rewrite decide_False by lia.
    rewrite decide_True by lia. rewrite Hk'. done.
  - intros k Hk. rewrite splice_lookup by lia.
    rewrite decide_False by lia. rewrite decide_False by lia. done.
Qed.

Lemma replace_step_spanning_runs_witness :
  let rs := [mkRun (py "ab") plain; mkRun (py "cd") arial_bold; mkRun (py "ef") plain] in
  let rs' := [mkRun (py "aXf") plain; mkRun [] arial_bold; mkRun [] plain] in
  replace_step rs (py "bcde") (py "X") 0 = Some (rs', 2) /\
  py_find (para_text rs) (py "bcde") 0 = Some 1 /\
  locate rs 0 0 1 (1 + length (py "bcde")) None = (Some (0, 1), Some (2, 1)) /\
  (length rs' = length rs /\
   (exists ri rj, rs !! 0 = Some ri /\ rs !! 2 = Some rj /\
      pre rs 0 <= 1 < pre rs 0 + length (r_text ri) /\ 1 = 1 - pre rs 0 /\
      pre rs 2 < 1 + length (py "bcde") <= pre rs 2 + length (r_text rj) /\
      1 = 1 + length (py "bcde") - pre rs 2 /\
      r_text <$> rs' !! 0 = Some (take 1 (r_text ri) ++ py "X" ++ drop 1 (r_text rj))) /\
   (forall k, 0 < k <= 2 -> exists rk, rs !! k = Some rk /\ rs' !! k = Some (cleared rk)) /\
   (forall k, k < 0 \/ 2 < k -> rs' !! k = rs !! k)).
Proof.
  intros rs rs'.
  assert (Hstep : replace_step rs (py "bcde") (py "X") 0 = Some (rs', 2))
    by (vm_compute; reflexivity).
  assert (Hf : py_find (para_text rs) (py "bcde") 0 = Some 1) by (vm_compute; reflexivity).
  assert (Hl : locate rs 0 0 1 (1 + length (py "bcde")) None = (Some (0, 1), Some (2, 1)))
    by (vm_compute; reflexivity).
  split; [exact Hstep|]. split; [exact Hf|]. split; [exact Hl|].
  exact (replace_step_spanning_runs rs (py "bcde") (py "X") 0 rs' 2 1 0 1 2 1
           ltac:(discriminate) Hstep Hf Hl ltac:(lia)).
Defined.

(** C2, counterexample: [_replace_in_paragraph] does not reject an empty
    search string.  On a paragraph made of one empty run it returns
    normally, with count 0. *)
Lemma replace_in_paragraph_empty_search_returns :
  replace_in_paragraph 1 [mkRun [] plain] [] (py "x") = Some ([mkRun [] plain], 0).
Proof. vm_compute. reflexivity. Qed.

(** C2, as the code has it: with an empty search string nothing is
    rejected.  A paragraph with no runs, or whose first run is empty, is
    returned unchanged with count 0; on a paragraph whose first run is not
    empty the loop never ends (it inserts the replacement at the cursor
    again and again), whatever the fuel. *)
Theorem replace_in_paragraph_empty_search replace_text :
  (forall fuel, replace_in_paragraph (S fuel) [] [] replace_text = Some ([], 0)) /\
  (forall f rs fuel,
     replace_in_paragraph (S fuel) (mkRun [] f :: rs) [] replace_text
     = Some (mkRun [] f :: rs, 0)) /\
  (forall x xs f rs fuel,
     replace_in_paragraph fuel (mkRun (x :: xs) f :: rs) [] replace_text = None).
Proof.
  split_and!.
  - intros fuel. reflexivity.
  - intros f rs fuel. unfold replace_in_paragraph, py_contains.
    rewrite py_find_empty by lia. cbn [negb replace_loop]. unfold replace_step.
    rewrite py_find_empty by lia. reflexivity.
  - intros x xs f rs fuel. unfold replace_in_paragraph, py_contains.
    rewrite py_find_empty by lia. cbn [negb].
    exact (replace_loop_empty_search [] x xs f rs replace_text fuel 0).
Qed.

(** C4: for a non-empty search string the loop of [_replace_in_paragraph]
    ends, for any replacement (the empty one too), within
    [len(paragraph.text) + 1] iterations, with a count; each iteration
    moves the cursor to just after the inserted replacement, at or after the
    old cursor, and strictly shrinks the text left after the cursor. *)
Theorem replace_in_paragraph_terminates rs search_text replace_text fuel :
  search_text <> [] -> length (para_text rs) < fuel ->
  (exists rs' count, replace_in_paragraph fuel rs search_text replace_text = Some (rs', count)) /\
  (forall rs1 c rs2 c', replace_step rs1 search_text replace_text c = Some (rs2, c') ->
     exists m, c <= m /\ c' = m + length replace_text /\
       length (para_text rs2) - c' < length (para_text rs1) - c).
Proof.
  intros Hs Hf. split.
  - unfold replace_in_paragraph.
    destruct (negb (py_contains (para_text rs) search_text)); [eauto|].
    apply replace_loop_some; [done|lia].
  - intros rs1 c rs2 c' Hstep. exact (replace_step_measure _ _ _ _ _ _ Hstep Hs).
Qed.

Lemma replace_in_paragraph_terminates_witness :
  py "a" <> [] /\ length (para_text [mkRun (py "aa") plain]) < 3 /\
  ((exists rs' count,
      replace_in_paragraph 3 [mkRun (py "aa") plain] (py "a") (py "aa") = Some (rs', count)) /\
   (forall rs1 c rs2 c', replace_step rs1 (py "a") (py "aa") c = Some (rs2, c') ->
      exists m, c <= m /\ c' = m + length (py "aa") /\
        length (para_text rs2) - c' < length (para_text rs1) - c)).
Proof.
  assert (Hs : py "a" <> []) by discriminate.
  assert (Hl : length (para_text [mkRun (py "aa") plain]) < 3) by (vm_compute; lia).
  split; [exact Hs|]. split; [exact Hl|].
  exact (replace_in_paragraph_terminates _ _ _ 3 Hs Hl).
Defined.

(** C7: [apply_run_format] overwrites exactly the attributes whose key is
    in the snapshot and leaves the others (and the text) as they were; and
    when a match lies inside one run, the step gives that run back its
    captured attributes: after the step the run has the same snapshot, and
    indeed the same font, as before. *)
Theorem apply_run_format_and_single_run_step :
  (forall r d,
     let f := r_font r in
     let f' := r_font (apply_run_format r d) in
     r_text (apply_run_format r d) = r_text r /\
     overwritten (d_font_name d) (f_name f) (f_name f') /\
     overwritten (d_font_size d) (f_size f) (f_size f') /\
     overwritten (d_bold d) (f_bold f) (f_bold f') /\
     overwritten (d_italic d) (f_italic f) (f_italic f') /\
     overwritten (d_underline d) (f_underline f) (f_underline f') /\
     overwritten (d_color_rgb d) (f_color_rgb f) (f_color_rgb f') /\
     overwritten (d_highlight_color d) (f_highlight f) (f_highlight f') /\
     overwritten (d_strike d) (f_strike f) (f_strike f') /\
     overwritten (d_subscript d) (f_subscript f) (f_subscript f') /\
     overwritten (d_superscript d) (f_superscript f) (f_superscript f')) /\
  (forall rs search_text replace_text c rs' c' m i so eo ri,
     search_text <> [] ->
     replace_step rs search_text replace_text c = Some (rs', c') ->
     py_find (para_text rs) search_text c = Some m ->
     locate rs 0 0 m (m + length search_text) None = (Some (i, so), Some (i, eo)) ->
     rs !! i = Some ri ->
     exists ri', rs' !! i = Some ri' /\
       capture_run_format ri' = capture_run_format ri /\ r_font ri' = r_font ri).
Proof.
  split.
  - intros r d f f'. subst f f'.
    destruct d as [n sz b it u col h st sb sp]; unfold overwritten; cbn.
    split_and!; try done;
      match goal with |- match ?k with _ => _ end => destruct k end; done.
  - intros rs s R c rs' c' m i so eo ri Hs Hstep Hf Hl Hi.
    destruct (replace_step_spec _ _ _ _ _ _ Hstep Hs)
      as (m' & i' & so' & j' & eo' & ri0 & rj & Hf' & Hl' & Hi' & Hj & Hij & _ & _
          & _ & _ & _ & ->).
    rewrite Hf in Hf'. injection Hf' as <-.
    rewrite Hl in Hl'. injection Hl' as <- <- <- <-.
    rewrite Hi in Hi'. injection Hi' as <-.
    assert (Hil : i < length rs) by (apply lookup_lt_Some in Hi; done).
    rewrite splice_lookup by lia. rewrite decide_True by done.
    eexists. split; [done|].
    assert (Hfont : forall t, r_font (apply_run_format (set_text ri t) (capture_run_format ri))
                              = r_font ri) by apply capture_apply_font.
    split; [|apply Hfont].
    unfold capture_run_format at 1. rewrite Hfont. done.
Qed.

Lemma apply_run_format_and_single_run_step_witness :
  let rs := [mkRun (py "abc") arial_bold] in
  let rs' := [mkRun (py "aXYc") arial_bold] in
  replace_step rs (py "b") (py "XY") 0 = Some (rs', 3) /\
  py_find (para_text rs) (py "b") 0 = Some 1 /\
  locate rs 0 0 1 (1 + length (py "b")) None = (Some (0, 1), Some (0, 2)) /\
  (exists ri', rs' !! 0 = Some ri' /\
     capture_run_format ri' = capture_run_format (mkRun (py "abc") arial_bold) /\
     r_font ri' = r_font (mkRun (py "abc") arial_bold)).
Proof.
  intros rs rs'.
  assert (Hstep : replace_step rs (py "b") (py "XY") 0 = Some (rs', 3))
    by (vm_compute; reflexivity).
  assert (Hf : py_find (para_text rs) (py "b") 0 = Some 1) by (vm_compute; reflexivity).
  assert (Hl : locate rs 0 0 1 (1 + length (py "b")) None = (Some (0, 1), Some (0, 2)))
    by (vm_compute; reflexivity).
  split; [exact Hstep|]. split; [exact Hf|]. split; [exact Hl|].
  exact (proj2 apply_run_format_and_single_run_step rs (py "b") (py "XY") 0 rs' 3 1 0 1 2
           (mkRun (py "abc") arial_bold) ltac:(discriminate) Hstep Hf Hl eq_refl).
Defined.

(** C8: for a loaded document and a non-empty search string found in none
    of its paragraphs (top level or in tables at any depth), [replace_text]
    returns 0 and leaves the document, hence its text, unchanged. *)
Theorem replace_text_absent_search fuel d search_text repl :
  search_text <> [] ->
  (forall p, p ∈ doc_paragraphs d -> py_contains (para_text p) search_text = false) ->
  replace_text fuel (Some d) search_text repl = Some (Some d, 0).
Proof.
  intros _ H. destruct d as [ps ts]. unfold replace_text. cbn [paragraphs tables].
  rewrite map_count_id.
  2: { rewrite Forall_forall. intros p Hp. apply replace_in_paragraph_absent, H.
       unfold doc_paragraphs. apply elem_of_app. by left. }
  rewrite map_count_id; [done|].
  rewrite Forall_forall. intros t Ht. apply replace_in_table_absent.
  intros p Hp. apply H. unfold doc_paragraphs. apply elem_of_app. right.
  apply list_elem_of_join. eexists. split; [exact Hp|by apply list_elem_of_fmap_2].
Qed.

Lemma replace_text_absent_search_witness :
  let d := mkDocument [[mkRun (py "Hello ") plain; mkRun (py "World") arial_bold]]
             [Table [[Cell [[mkRun (py "Cell 1 - 2024") plain]] [];
                      Cell [] [Table [[Cell [[mkRun (py "nested") plain]] []]]]]]] in
  py "2025" <> [] /\
  (forall p, p ∈ doc_paragraphs d -> py_contains (para_text p) (py "2025") = false) /\
  replace_text 5 (Some d) (py "2025") (py "2026") = Some (Some d, 0).
Proof.
  intros d.
  assert (Hs : py "2025" <> []) by discriminate.
  assert (H : forall p, p ∈ doc_paragraphs d -> py_contains (para_text p) (py "2025") = false).
  { intros p Hp. apply list_elem_of_In in Hp. vm_compute in Hp.
    repeat (destruct Hp as [<-|Hp]; [vm_compute; reflexivity|]). contradiction. }
  split; [exact Hs|]. split; [exact H|].
  exact (replace_text_absent_search 5 d _ (py "2026") Hs H).
Defined.

(* ------------------------------------------------------------------ *)
(** * Facts about the batch orchestrator *)

Section BatchFacts.






Lemma omap_perm {A B} (g : A -> option B) (xs ys : list A) :
  xs ≡ₚ ys -> omap g xs ≡ₚ omap g ys.
Proof.
  induction 1 as [|x xs ys _ IH|x y xs|xs ys zs _ IH1 _ IH2]; simpl.
  - done.
  - destruct (g x); [by constructor|done].
  - destruct (g x), (g y); try apply perm_swap; reflexivity.
  - by rewrite IH1.
Qed.












Lemma Forall_omap {A B} (P : B -> Prop) (g : A -> option B) (xs : list A) :
  (forall x y, g x = Some y -> P y) -> Forall P (omap g xs).
Proof.
  intros H. induction xs as [|x xs IH]; simpl; [constructor|].
  destruct (g x) eqn:Hg; [constructor; [exact (H _ _ Hg)|exact IH]|exact IH].
Qed.

Lemma call_result_callback_results cbs r s :
  bs_results (fst (call_result_callback cbs r s)) = bs_results s.
Proof. unfold call_result_callback. by destruct (result_callback cbs). Qed.

Lemma call_progress_callback_results cbs n s :
  bs_results (fst (call_progress_callback cbs n s)) = bs_results s.
Proof. unfold call_progress_callback. by destruct (progress_callback cbs). Qed.

Lemma except_branch_results cbs n p e s :
  bs_results (fst (except_branch cbs n p e s))
  = bs_results s ++ [failed p (py "Processing error: " ++ e)].
Proof.
  unfold except_branch.
  set (er := failed p (py "Processing error: " ++ e)).
  pose proof (call_result_callback_results cbs er (append_result er s)) as Hr.
  destruct (call_result_callback cbs er (append_result er s)) as [s1 [e1|]].
  - exact Hr.
  - rewrite call_progress_callback_results. exact Hr.
Qed.

(** Whether or not it raises, an iteration of the [as_completed] loop
    appends the task's result, then an error result when a callback in the
    [try] raised. *)
Lemma loop_body_results cbs n p r s :
  exists b, loop_block p r b /\ bs_results (fst (loop_body cbs n p r s)) = bs_results s ++ b.
Proof.
  unfold loop_body.
  set (s0 := incr_processed (append_result r s)).
  assert (H0 : bs_results s0 = bs_results s ++ [r]) by done.
  pose proof (call_result_callback_results cbs r s0) as H1.
  destruct (call_result_callback cbs r s0) as [s1 [e|]]; cbn [fst] in H1.
  - exists [r; failed p (py "Processing error: " ++ e)]. split; [right; by exists e|].
    rewrite except_branch_results, H1, H0, <- app_assoc. done.
  - pose proof (call_progress_callback_results cbs n s1) as H2.
    destruct (call_progress_callback cbs n s1) as [s2 [e|]]; cbn [fst] in H2.
    + exists [r; failed p (py "Processing error: " ++ e)]. split; [right; by exists e|].
      rewrite except_branch_results, H2, H1, H0, <- app_assoc. done.
    + exists [r]. split; [by left|]. cbn [fst]. rewrite H2, H1, H0. done.
Qed.



(** What a run leaves in [self.results] satisfies every property that the
    failed results and the tasks' results satisfy, whether it returns or
    raises. *)
Lemma report_invalid_forall (P : processing_result -> Prop) cbs ps s :
  (forall p e, P (failed p e)) -> Forall P (bs_results s) ->
  Forall P (bs_results (fst (report_invalid cbs ps s))).
Proof.
  intros Hf. revert s. induction ps as [|p ps IH]; intros s Hs; cbn [report_invalid]; [done|].
  pose proof (call_result_callback_results cbs (invalid_result p)
                (append_result (invalid_result p) s)) as Hr.
  assert (Forall P (bs_results (append_result (invalid_result p) s))) as Ha.
  { cbn [append_result bs_results]. apply Forall_app. split; [done|]. constructor; [apply Hf|constructor]. }
  destruct (call_result_callback cbs (invalid_result p) (append_result (invalid_result p) s))
    as [s1 [e|]]; cbn [fst] in Hr |- *.
  - rewrite Hr. exact Ha.
  - apply IH. rewrite Hr. exact Ha.
Qed.

Lemma as_completed_loop_forall (P : processing_result -> Prop) cbs ss t n comp s :
  (forall p e, P (failed p e)) -> Forall (fun pr => P pr.2) comp -> Forall P (bs_results s) ->
  Forall P (bs_results (fst (as_completed_loop cbs ss t n comp s))).
Proof.
  intros Hf. revert t s. induction comp as [|[p r] comp IH]; intros t s Hc Hs;
    cbn [as_completed_loop]; [done|].
  apply Forall_cons in Hc as [Hr Hc]. cbn [snd] in Hr.
  destruct (ss t); [done|].
  destruct (loop_body_results cbs n p r s) as (b & Hb & Hres).
  assert (Forall P (bs_results (fst (loop_body cbs n p r s)))) as Ha.
  { rewrite Hres. apply Forall_app. split; [done|].
    destruct Hb as [->|[e ->]]; repeat constructor; auto. }
  destruct (loop_body cbs n p r s) as [s1 [e|]]; [exact Ha|].
  apply IH; [exact Hc|exact Ha].
Qed.







End BatchFacts.

(* ------------------------------------------------------------------ *)
(** * Claims about the batch orchestrator *)






Section BackupFacts.

Lemma bindM_ok {A B} (m : M A) (k : A -> M B) w a w' :
  m w = (inr a, w') -> bindM m k w = k a w'.
Proof. intros H. unfold bindM. by rewrite H. Qed.

Lemma set_files_same w : set_files (w_files w) w = w.
Proof. by destruct w. Qed.

Lemma remove_quietly_eval p w :
  remove_quietly p w = (inr tt, set_files (delete p (w_files w)) w).
Proof.
  unfold remove_quietly, try_except, os_remove.
  destruct (w_files w !! p) eqn:Hp; [done|].
  rewrite delete_id by done. rewrite set_files_same.
  by destruct (bool_decide (p ∈ w_dirs w)).
Qed.

(** [if os.path.exists(p): try: os.remove(p) except OSError: pass] leaves
    no file at [p], whatever was there. *)
Lemma clean_then_eval {B} p (k : unit -> M B) w :
  bindM (os_path_exists p) (fun e => bindM (if e then remove_quietly p else retM tt) k) w =
  k tt (set_files (delete p (w_files w)) w).
Proof.
  unfold os_path_exists, bindM at 1.
  destruct (bool_decide (is_Some (w_files w !! p)) || bool_decide (p ∈ w_dirs w)) eqn:He.
  - apply bindM_ok, remove_quietly_eval.
  - apply bindM_ok. unfold retM.
    apply orb_false_iff in He as [He _]. apply bool_decide_eq_false in He.
    rewrite delete_id, set_files_same; [done|].
    destruct (w_files w !! p); [|done]. exfalso. by apply He.
Qed.

Lemma clean_eval p w :
  bindM (os_path_exists p) (fun e => if e then remove_quietly p else retM tt) w =
  (inr tt, set_files (delete p (w_files w)) w).
Proof.
  unfold os_path_exists, bindM at 1.
  destruct (bool_decide (is_Some (w_files w !! p)) || bool_decide (p ∈ w_dirs w)) eqn:He.
  - apply remove_quietly_eval.
  - unfold retM.
    apply orb_false_iff in He as [He _]. apply bool_decide_eq_false in He.
    rewrite delete_id, set_files_same; [done|].
    destruct (w_files w !! p); [|done]. exfalso. by apply He.
Qed.

Lemma copy2_eval src dst w c :
  w_files w !! src = Some c -> dst ∉ w_dirs w ->
  shutil_copy2 src dst w = (inr tt, set_files (<[dst := c]> (w_files w)) w).
Proof.
  intros Hs Hd. unfold shutil_copy2. rewrite Hs. by rewrite bool_decide_false.
Qed.

Lemma replace_eval src dst w c :
  w_files w !! src = Some c -> dst ∉ w_dirs w ->
  os_replace src dst w = (inr tt, set_files (<[dst := c]> (delete src (w_files w))) w).
Proof.
  intros Hs Hd. unfold os_replace. rewrite Hs. by rewrite bool_decide_false.
Qed.

Lemma backup_attempt_finishes doc bd name ext hint h6 w c :
  let bn := backup_name_of name hint h6 (take 8 (w_uuid w (w_draws w))) ext in
  let P := os_path_join bd bn in
  let T := os_path_join bd (py "." ++ bn ++ py ".tmp") in
  w_files w !! doc = Some c -> T ∉ w_dirs w -> P ∉ w_dirs w -> T <> doc -> T <> P ->
  backup_attempt doc bd name ext hint h6 w =
    (inr (Finished P),
     set_files (delete T (<[P := c]> (delete T (<[T := c]> (delete T (w_files w))))))
       (set_draws (S (w_draws w)) w)).
Proof.
  intros bn P T Hdoc HT HP HTd HTP.
  unfold backup_attempt.
  rewrite (bindM_ok uuid4_hex8 _ w (take 8 (w_uuid w (w_draws w))) (set_draws (S (w_draws w)) w) eq_refl).
  fold bn P T. clearbody bn P T.
  unfold try_finally. rewrite clean_then_eval.
  set (w1 := set_draws (S (w_draws w)) w).
  set (w2 := set_files (delete T (w_files w1)) w1).
  assert (w_files w2 !! doc = Some c) as H2 by (cbn; by rewrite lookup_delete_ne).
  rewrite (bindM_ok _ _ w2 tt _ (copy2_eval doc T w2 c H2 HT)).
  set (w3 := set_files (<[T := c]> (w_files w2)) w2).
  assert (w_files w3 !! T = Some c) as H3 by (cbn; by rewrite lookup_insert_eq).
  unfold try_except.
  rewrite (bindM_ok _ _ w3 tt _ (replace_eval T P w3 c H3 HP)).
  unfold retM. rewrite clean_eval. done.
Qed.

Lemma makedirs_eval d w :
  d <> [] -> w_files w !! d = None ->
  os_makedirs d w = (inr tt, set_dirs ({[d]} ∪ w_dirs w) w).
Proof. intros Hd Hf. unfold os_makedirs. rewrite bool_decide_false by done. by rewrite Hf. Qed.

(** When its first attempt goes through, [create_backup] returns that
    attempt's path, which then holds the source's bytes. *)
Lemma create_backup_first_attempt doc bd w h6 c :
  path_hash6 (os_path_abspath (w_cwd w) doc) = Some h6 ->
  bd <> [] -> w_files w !! bd = None ->
  w_files w !! doc = Some c ->
  first_tmp_path doc bd w h6 ∉ {[bd]} ∪ w_dirs w ->
  first_backup_path doc bd w h6 ∉ {[bd]} ∪ w_dirs w ->
  first_tmp_path doc bd w h6 <> doc ->
  first_tmp_path doc bd w h6 <> first_backup_path doc bd w h6 ->
  fst (create_backup doc (Some bd) w) = inr (first_backup_path doc bd w h6) /\
  w_files (snd (create_backup doc (Some bd) w)) !! first_backup_path doc bd w h6 = Some c /\
  w_files (snd (create_backup doc (Some bd) w)) !! first_tmp_path doc bd w h6 = None.
Proof.
  intros Hh Hbd Hbdf Hdoc HT HP HTd HTP.
  unfold first_tmp_path, first_backup_path, first_backup_name in *.
  destruct (os_path_splitext (os_path_basename doc)) as [name ext] eqn:Hs.
  unfold create_backup.
  rewrite (bindM_ok _ _ w tt _ (makedirs_eval bd w Hbd Hbdf)).
  set (w1 := set_dirs ({[bd]} ∪ w_dirs w) w).
  rewrite Hs. rewrite (bindM_ok getcwd _ w1 (w_cwd w1) w1 eq_refl).
  change (w_cwd w1) with (w_cwd w). rewrite Hh. cbn [backup_attempts].
  rewrite (bindM_ok _ _ w1 _ _
             (backup_attempt_finishes doc bd name ext (parent_hint doc) h6 w1 c Hdoc HT HP HTd HTP)).
  cbn [fst snd retM w_files set_files].
  rewrite lookup_delete_ne by done. rewrite lookup_insert_eq.
  rewrite lookup_delete_eq. done.
Qed.

End BackupFacts.

(** C3 (the collision is never seen): whenever the path generated by the
    first attempt of [create_backup] is already taken by a file, the file is
    replaced by the copy of the source and that path is returned. *)
Theorem create_backup_overwrites_existing doc bd w h6 c old :
  path_hash6 (os_path_abspath (w_cwd w) doc) = Some h6 ->
  bd <> [] -> w_files w !! bd = None ->
  w_files w !! doc = Some c ->
  w_files w !! first_backup_path doc bd w h6 = Some old ->
  first_tmp_path doc bd w h6 ∉ {[bd]} ∪ w_dirs w ->
  first_backup_path doc bd w h6 ∉ {[bd]} ∪ w_dirs w ->
  first_tmp_path doc bd w h6 <> doc ->
  first_tmp_path doc bd w h6 <> first_backup_path doc bd w h6 ->
  fst (create_backup doc (Some bd) w) = inr (first_backup_path doc bd w h6) /\
  w_files (snd (create_backup doc (Some bd) w)) !! first_backup_path doc bd w h6 = Some c.
Proof.
  intros Hh Hbd Hbdf Hdoc _ HT HP HTd HTP.
  destruct (create_backup_first_attempt doc bd w h6 c Hh Hbd Hbdf Hdoc HT HP HTd HTP)
    as (H1 & H2 & _).
  done.
Qed.

Lemma create_backup_overwrites_existing_witness :
  w_files occupied_world !! py "/backups/report_backup_data_c03e26_0123abcd.docx"
    = Some (py "old") /\
  fst (create_backup (py "/data/report.docx") (Some (py "/backups")) occupied_world)
    = inr (py "/backups/report_backup_data_c03e26_0123abcd.docx") /\
  w_files (snd (create_backup (py "/data/report.docx") (Some (py "/backups")) occupied_world))
    !! py "/backups/report_backup_data_c03e26_0123abcd.docx" = Some (py "new").
Proof.
  split; [vm_compute; reflexivity|].
  apply (create_backup_overwrites_existing (py "/data/report.docx") (py "/backups")
           occupied_world (py "c03e26") (py "new") (py "old")).
  all: try (vm_compute; reflexivity).
  all: refine (bool_decide_unpack _ _); vm_compute; exact I.
Defined.

(** C3 (counterexample): in [occupied_world] the file [old] already sits at
    the path generated for [/data/report.docx]; [create_backup] does not
    retry but returns that path, which now holds the source's bytes. *)
Lemma create_backup_collision_not_detected :
  let r := create_backup (py "/data/report.docx") (Some (py "/backups")) occupied_world in
  w_files occupied_world !! py "/backups/report_backup_data_c03e26_0123abcd.docx"
    = Some (py "old") /\
  fst r = inr (py "/backups/report_backup_data_c03e26_0123abcd.docx") /\
  w_files (snd r) !! py "/backups/report_backup_data_c03e26_0123abcd.docx" = Some (py "new").
Proof. vm_compute. split_and!; reflexivity. Qed.

(** C5 (counterexample): two backups of the same source, made while the
    first eight hex digits of the drawn UUIDs coincide, get the same path;
    the second overwrites the first. *)
Lemma create_backup_repeated_same_path :
  let bk1 := create_backup (py "/d4186/dept/report.docx") (Some (py "/backups")) twin_world in
  let bk2 := create_backup (py "/d4186/dept/report.docx") (Some (py "/backups")) (snd bk1) in
  sample_uuid 0 <> sample_uuid 1 /\
  fst bk1 = inr (py "/backups/report_backup_dept_124197_0123abcd.docx") /\
  fst bk2 = fst bk1.
Proof. vm_compute. split_and!; [discriminate|reflexivity|reflexivity]. Qed.

(** C9 (counterexample): [/d4186/dept/report.docx] (bytes [A]) and
    [/d10730/dept/report.docx] (bytes [B]) are backed up into [/backups], one
    call after the other, which is one schedule of concurrent calls.  Both
    calls return the same path, and the backup returned for the first source
    holds the second source's bytes. *)
Lemma create_backup_concurrent_twins_collide :
  let bk1 := create_backup (py "/d4186/dept/report.docx") (Some (py "/backups")) twin_world in
  let bk2 := create_backup (py "/d10730/dept/report.docx") (Some (py "/backups")) (snd bk1) in
  fst bk1 = inr (py "/backups/report_backup_dept_124197_0123abcd.docx") /\
  fst bk2 = fst bk1 /\
  w_files (snd bk2) !! py "/d4186/dept/report.docx" = Some (py "A") /\
  w_files (snd bk2) !! py "/backups/report_backup_dept_124197_0123abcd.docx" = Some (py "B").
Proof. vm_compute. split_and!; reflexivity. Qed.

(* ------------------------------------------------------------------ *)
(** * Facts about the whole replacement engine *)

Section EngineFacts.

Lemma clear_at_fonts i rs : r_font <$> clear_at i rs = r_font <$> rs.
Proof.
  unfold clear_at. destruct (rs !! i) as [r|] eqn:Hr; [|done].
  rewrite list_fmap_insert. apply list_insert_id. rewrite list_lookup_fmap, Hr. done.
Qed.

Lemma clear_runs_fonts lo n rs : r_font <$> clear_runs lo n rs = r_font <$> rs.
Proof.
  revert lo rs. induction n as [|n IH]; intros lo rs; [done|].
  simpl. rewrite IH. apply clear_at_fonts.
Qed.

Lemma replace_step_fonts rs s R c rs' c' :
  replace_step rs s R c = Some (rs', c') -> r_font <$> rs' = r_font <$> rs.
Proof.
  unfold replace_step.
  destruct (py_find (para_text rs) s c) as [m|]; [|discriminate].
  destruct (locate rs 0 0 m (m + length s) None) as [[[i so]|] [[j eo]|]]; try discriminate.
  destruct (rs !! i) as [ri|] eqn:Hi; [|discriminate].
  destruct (rs !! j) as [rj|]; [|discriminate].
  intros H. injection H as <- _.
  rewrite clear_runs_fonts, list_fmap_insert, capture_apply_font.
  apply list_insert_id. rewrite list_lookup_fmap, Hi. done.
Qed.

Lemma replace_loop_fonts fuel rs s R c cnt rs' n :
  replace_loop fuel rs s R c cnt = Some (rs', n) -> r_font <$> rs' = r_font <$> rs.
Proof.
  revert rs c cnt. induction fuel as [|fuel IH]; intros rs c cnt Hl; [discriminate|].
  simpl in Hl. destruct (replace_step rs s R c) as [[rs1 c1]|] eqn:Hstep.
  - rewrite (IH _ _ _ Hl). exact (replace_step_fonts _ _ _ _ _ _ Hstep).
  - by injection Hl as <- _.
Qed.

Lemma replace_in_paragraph_fonts fuel rs s R rs' n :
  replace_in_paragraph fuel rs s R = Some (rs', n) -> r_font <$> rs' = r_font <$> rs.
Proof.
  unfold replace_in_paragraph. destruct (negb _).
  - by injection 1 as <- _.
  - apply replace_loop_fonts.
Qed.

Lemma cleared_fonts (p p' : paragraph) :
  r_font <$> p' = r_font <$> p -> map cleared p' = map cleared p.
Proof.
  revert p'. induction p as [|r p IH]; intros [|r' p'] H; try discriminate; [done|].
  injection H as Hr Hp. simpl. unfold cleared at 1 3, set_text. rewrite Hr.
  f_equal. by apply IH.
Qed.

End EngineFacts.

Section DocumentFacts.

Lemma Forall2_fmap_eq {A B} (F G : A -> B) (xs ys : list A) :
  Forall2 (fun x y => F y = G x) xs ys -> F <$> ys = G <$> xs.
Proof.
  induction 1 as [|x y xs ys H _ IH]; [done|].
  change (F y :: (F <$> ys) = G x :: (G <$> xs)). congruence.
Qed.

End DocumentFacts.

Section ShapeFacts.

Lemma map_count_inv {A} (f : A -> option (A * nat)) (xs xs' : list A) n :
  map_count f xs = Some (xs', n) -> Forall2 (fun x x' => exists k, f x = Some (x', k)) xs xs'.
Proof.
  revert xs' n. induction xs as [|x xs IH]; intros xs' n H; simpl in H.
  - injection H as <- _. constructor.
  - destruct (f x) as [[x1 k]|] eqn:Hx; [|discriminate].
    destruct (map_count f xs) as [[xs1 m]|] eqn:Hxs; [|discriminate].
    injection H as <- _. constructor; [eauto|]. exact (IH xs1 m eq_refl).
Qed.

Lemma Forall2_with_Forall {A B} (P : A -> Prop) (Q : A -> B -> Prop) l k :
  Forall P l -> Forall2 Q l k -> Forall2 (fun x y => P x /\ Q x y) l k.
Proof. intros HP HQ. induction HQ; inversion HP; subst; constructor; auto. Qed.

Lemma replace_in_table_shape fuel s R :
  forall t t' n, replace_in_table fuel s R t = Some (t', n) -> erase_table t' = erase_table t.
Proof.
  intros t.
  apply (table_cell_ind
    (fun t => forall t' n, replace_in_table fuel s R t = Some (t', n) ->
                           erase_table t' = erase_table t)
    (fun c => forall c' n, replace_in_cell fuel s R c = Some (c', n) ->
                           erase_cell c' = erase_cell c)).
  - intros rows Hrows t' n H. simpl in H.
    destruct (map_count (map_count (replace_in_cell fuel s R)) rows) as [[rows' m]|] eqn:Hm;
      [|discriminate].
    injection H as <- _. simpl. f_equal.
    apply Forall2_fmap_eq.
    pose proof (map_count_inv _ _ _ _ Hm) as Hrel.
    apply (Forall2_with_Forall _ _ _ _ Hrows) in Hrel.
    eapply Forall2_impl; [exact Hrel|]. intros row row' [Hq (k & Hk)].
    apply Forall2_fmap_eq. pose proof (map_count_inv _ _ _ _ Hk) as Hr.
    apply (Forall2_with_Forall _ _ _ _ Hq) in Hr.
    eapply Forall2_impl; [exact Hr|]. intros c c' [Hc (j & Hj)]. exact (Hc _ _ Hj).
  - intros ps ts Hts c' n H. simpl in H.
    destruct (map_count (fun p => replace_in_paragraph fuel p s R) ps) as [[ps' a]|] eqn:Hps;
      [|discriminate].
    destruct (map_count (replace_in_table fuel s R) ts) as [[ts' b]|] eqn:Hts';
      [|discriminate].
    injection H as <- _. simpl. f_equal.
    + apply Forall2_fmap_eq. eapply Forall2_impl; [exact (map_count_inv _ _ _ _ Hps)|].
      intros p p' (k & Hk). apply cleared_fonts. exact (replace_in_paragraph_fonts _ _ _ _ _ _ Hk).
    + apply Forall2_fmap_eq. pose proof (map_count_inv _ _ _ _ Hts') as Hr.
      apply (Forall2_with_Forall _ _ _ _ Hts) in Hr.
      eapply Forall2_impl; [exact Hr|]. intros t1 t1' [Ht (j & Hj)]. exact (Ht _ _ Hj).
Qed.

(** [replace_text] on a loaded document keeps its shape and fonts. *)
Lemma replace_text_shape fuel d s R d' n :
  replace_text fuel (Some d) s R = Some (Some d', n) -> erase_doc d' = erase_doc d.
Proof.
  unfold replace_text.
  destruct (map_count (fun p => replace_in_paragraph fuel p s R) (paragraphs d))
    as [[ps a]|] eqn:Hps; [|discriminate].
  destruct (map_count (replace_in_table fuel s R) (tables d)) as [[ts b]|] eqn:Hts;
    [|discriminate].
  intros H. injection H as <- _. unfold erase_doc. simpl. f_equal.
  - apply Forall2_fmap_eq. eapply Forall2_impl; [exact (map_count_inv _ _ _ _ Hps)|].
    intros p p' (k & Hk). apply cleared_fonts. exact (replace_in_paragraph_fonts _ _ _ _ _ _ Hk).
  - apply Forall2_fmap_eq. eapply Forall2_impl; [exact (map_count_inv _ _ _ _ Hts)|].
    intros t t' (k & Hk). exact (replace_in_table_shape _ _ _ _ _ _ Hk).
Qed.

End ShapeFacts.

Section ProcessorFacts.

Lemma replace_pairs_app fuel st xs ys total :
  replace_pairs fuel st (xs ++ ys) total =
  match replace_pairs fuel st xs total with
  | None => None
  | Some (st1, t1) => replace_pairs fuel st1 ys t1
  end.
Proof.
  revert st total. induction xs as [|[s r] xs IH]; intros st total; [done|].
  simpl. destruct (proc_replace_text fuel st s r) as [[st1 k]|]; [apply IH|done].
Qed.

Lemma proc_replace_text_loaded fuel st s r st' k :
  p_doc st <> None -> proc_replace_text fuel st s r = Some (st', k) ->
  p_doc st' <> None /\ p_replacement_count st' = k.
Proof.
  unfold proc_replace_text. destruct (p_doc st) as [d|]; [|done]. intros _.
  destruct (replace_text fuel (Some d) s r) as [[[d'|] n]|]; try discriminate.
  intros H. injection H as <- <-. done.
Qed.

Lemma replace_pairs_loaded fuel st xs total st' t :
  p_doc st <> None -> replace_pairs fuel st xs total = Some (st', t) -> p_doc st' <> None.
Proof.
  revert st total. induction xs as [|[s r] xs IH]; intros st total Hd H; simpl in H.
  - by injection H as <- _.
  - destruct (proc_replace_text fuel st s r) as [[st1 k]|] eqn:Hp; [|discriminate].
    apply (IH st1 (total + k)); [|exact H].
    exact (proj1 (proc_replace_text_loaded _ _ _ _ _ _ Hd Hp)).
Qed.

End ProcessorFacts.

Section StatisticsFacts.

(** [s.split()] has at most one word per character. *)
Lemma split_ws_aux_length cur s :
  length (split_ws_aux cur s) <= length s + (match cur with [] => 0 | _ :: _ => 1 end).
Proof.
  revert cur. induction s as [|c s IH]; intros cur; simpl.
  - destruct cur; simpl; lia.
  - destruct (py_isspace c).
    + destruct cur; simpl; specialize (IH []); simpl in IH; lia.
    + specialize (IH (c :: cur)). destruct cur; simpl in *; lia.
Qed.

Lemma py_split_length s : length (py_split s) <= length s.
Proof. pose proof (split_ws_aux_length [] s). simpl in *. unfold py_split. lia. Qed.

Lemma sum_list_fmap_le {A} (f g : A -> nat) (l : list A) :
  (forall x, f x <= g x) -> sum_list (f <$> l) <= sum_list (g <$> l).
Proof.
  intros H. induction l as [|x l IH]; [done|].
  change (f x + sum_list (f <$> l) <= g x + sum_list (g <$> l)). specialize (H x). lia.
Qed.

End StatisticsFacts.

Section ResultFacts.

(** A task that does not succeed reports no replacement. *)
Lemma process_single_file_failed_zero env cb st p :
  res_success (fst (process_single_file env cb st p)) = false ->
  res_replacements (fst (process_single_file env cb st p)) = 0.
Proof.
  unfold process_single_file.
  destruct st; [done|]. destruct (negb (load_ok env p)); [done|].
  destruct (doc_errors env p); [|done].
  destruct cb; [destruct (backup_outcome env p)|]; simpl; try done;
    destruct (save_ok env p); done.
Qed.

Lemma process_documents_failed_zero env fsv cb cbs paths order task_stopped stop_seen :
  Forall (fun r => res_success r = false -> res_replacements r = 0)
    (bs_results (fst (process_documents_run env fsv cb cbs paths order task_stopped stop_seen))).
Proof.
  set (P := fun r => res_success r = false -> res_replacements r = 0).
  assert (Hf : forall p e, P (failed p e)) by (intros p e _; reflexivity).
  unfold process_documents_run. cbv zeta.
  pose proof (report_invalid_forall P cbs (invalid_paths fsv paths) (mkBatchState [] [] 0)
                Hf (List.Forall_nil _)) as Hri.
  destruct (report_invalid cbs (invalid_paths fsv paths) (mkBatchState [] [] 0))
    as [s [e|]]; cbn [fst] in Hri |- *; [exact Hri|].
  apply as_completed_loop_forall; [exact Hf| |exact Hri].
  unfold completed_tasks. apply Forall_omap. intros k [p r] H.
  destruct (validate_files fsv paths !! k); [|discriminate].
  injection H as <- <-. cbn [snd]. unfold P. apply process_single_file_failed_zero.
Qed.

Lemma sum_replacements_successful rs :
  Forall (fun r => res_success r = false -> res_replacements r = 0) rs ->
  sum_list (res_replacements <$> rs) = sum_list (res_replacements <$> get_successful_results rs).
Proof.
  unfold get_successful_results.
  induction 1 as [|r rs Hr _ IH]; [done|].
  rewrite filter_cons. destruct (res_success r) eqn:Hs.
  - rewrite decide_True by done.
    change (res_replacements r + sum_list (res_replacements <$> rs) =
            res_replacements r + sum_list (res_replacements <$>
                                   filter (fun r => res_success r = true) rs)).
    rewrite IH. done.
  - rewrite decide_False by done.
    change (res_replacements r + sum_list (res_replacements <$> rs) =
            sum_list (res_replacements <$> filter (fun r => res_success r = true) rs)).
    rewrite Hr by done. exact IH.
Qed.

End ResultFacts.

Section PathFacts.

Lemma rfind_from_absent c s i best :
  c ∉ s -> rfind_from c s i best = best.
Proof.
  revert i. induction s as [|x s IH]; intros i Hc; [done|]. simpl.
  rewrite elem_of_cons in Hc.
  destruct (Z.eqb_spec x c); [exfalso; apply Hc; left; done|].
  apply IH. intros H. apply Hc. right. exact H.
Qed.

Lemma os_path_dirname_no_slash p : slash ∉ p -> os_path_dirname p = [].
Proof.
  intros Hp. unfold os_path_dirname, py_rfind_char.
  rewrite rfind_from_absent by exact Hp. done.
Qed.

Lemma sub_non_hint_hint b s : Forall (fun c => hint_char c = true) (sub_non_hint b s).
Proof.
  revert b. induction s as [|c s IH]; intros b; simpl; [constructor|].
  destruct (hint_char c) eqn:Hc; [constructor; [exact Hc|apply IH]|].
  destruct b; [apply IH|]. constructor; [reflexivity|apply IH].
Qed.

Lemma lstrip_char_suffix c s : exists k, s = k ++ lstrip_char c s.
Proof.
  induction s as [|x s IH]; [exists []; done|]. simpl.
  destruct (Z.eqb x c); [|exists []; done].
  destruct IH as (k & Hk). exists (x :: k). simpl. rewrite <- Hk. done.
Qed.

Lemma lstrip_char_head c s x s' : lstrip_char c s = x :: s' -> x <> c.
Proof.
  induction s as [|y s IH]; simpl; [discriminate|].
  destruct (Z.eqb_spec y c); [exact IH|]. intros H. injection H as <- _. done.
Qed.

Lemma rstrip_char_prefix c s : exists k, s = rstrip_char c s ++ k.
Proof.
  unfold rstrip_char. destruct (lstrip_char_suffix c (reverse s)) as (k & Hk).
  exists (reverse k). rewrite <- reverse_app, <- Hk, reverse_involutive. done.
Qed.

Lemma os_path_join_nonempty a b : b <> [] -> os_path_join a b <> [].
Proof.
  intros Hb. unfold os_path_join.
  destruct (starts_with_slash b); [done|].
  destruct (bool_decide (a = []) || bool_decide (last a = Some slash));
    intros H; apply (f_equal length) in H; rewrite ?length_app in H;
    destruct b; simpl in *; try done; lia.
Qed.

Lemma first_backup_path_nonempty doc bd w h6 : first_backup_path doc bd w h6 <> [].
Proof.
  unfold first_backup_path, first_backup_name.
  destruct (os_path_splitext (os_path_basename doc)) as [name ext].
  apply os_path_join_nonempty. unfold backup_name_of.
  intros H. apply (f_equal length) in H. rewrite !length_app in H. simpl in H. lia.
Qed.

End PathFacts.

Section RestoreFacts.

(** [create_backup] through its first attempt, on the whole world: the
    backup directory is recorded, one UUID is drawn, and the only files
    touched are the backup and the temporary name. *)
Lemma create_backup_first_attempt_world doc bd w h6 c :
  path_hash6 (os_path_abspath (w_cwd w) doc) = Some h6 ->
  bd <> [] -> w_files w !! bd = None ->
  w_files w !! doc = Some c ->
  first_tmp_path doc bd w h6 ∉ {[bd]} ∪ w_dirs w ->
  first_backup_path doc bd w h6 ∉ {[bd]} ∪ w_dirs w ->
  first_tmp_path doc bd w h6 <> doc ->
  first_tmp_path doc bd w h6 <> first_backup_path doc bd w h6 ->
  create_backup doc (Some bd) w =
    (inr (first_backup_path doc bd w h6),
     mkWorld (<[first_backup_path doc bd w h6 := c]> (delete (first_tmp_path doc bd w h6) (w_files w)))
       ({[bd]} ∪ w_dirs w) (w_cwd w) (w_uuid w) (S (w_draws w))).
Proof.
  intros Hh Hbd Hbdf Hdoc HT HP HTd HTP.
  unfold first_tmp_path, first_backup_path, first_backup_name in *.
  destruct (os_path_splitext (os_path_basename doc)) as [name ext] eqn:Hs.
  unfold create_backup.
  rewrite (bindM_ok _ _ w tt _ (makedirs_eval bd w Hbd Hbdf)).
  set (w1 := set_dirs ({[bd]} ∪ w_dirs w) w).
  rewrite Hs. rewrite (bindM_ok getcwd _ w1 (w_cwd w1) w1 eq_refl).
  change (w_cwd w1) with (w_cwd w). rewrite Hh. cbn [backup_attempts].
  rewrite (bindM_ok _ _ w1 _ _
             (backup_attempt_finishes doc bd name ext (parent_hint doc) h6 w1 c Hdoc HT HP HTd HTP)).
  cbn [retM]. f_equal. unfold set_files, set_draws, w1, set_dirs. cbn. f_equal.
  rewrite delete_insert_ne by done. f_equal.
  rewrite delete_delete_eq, delete_insert_eq, delete_delete_eq. done.
Qed.

(** [restore_backup] from an existing backup file copies it over the
    document and reloads it. *)
Lemma restore_backup_eval parses doc bp w c :
  bp <> [] -> w_files w !! bp = Some c -> doc ∉ w_dirs w ->
  restore_backup parses doc (Some bp) w =
    (inr (parses c), set_files (<[doc := c]> (w_files w)) w).
Proof.
  intros Hbp Hc Hd. destruct bp as [|x bp']; [done|].
  unfold restore_backup.
  rewrite (bindM_ok (os_path_exists (x :: bp')) _ w true w).
  2:{ unfold os_path_exists. rewrite Hc. rewrite bool_decide_true by done. done. }
  cbn [negb]. unfold try_except.
  rewrite (bindM_ok _ _ w tt _ (copy2_eval (x :: bp') doc w c Hc Hd)).
  unfold load_doc. cbn. rewrite lookup_insert_eq. done.
Qed.

End RestoreFacts.

(* ------------------------------------------------------------------ *)
(** * More of the code: replacement, statistics, lookup, summaries,
      callbacks, backups and restore *)

(** X2: whenever [_replace_in_paragraph] returns, the paragraph has the
    same number of runs as before and every run keeps its font, also when
    a match spans several runs. *)
Theorem replace_in_paragraph_keeps_fonts fuel rs search_text replace_text rs' n :
  replace_in_paragraph fuel rs search_text replace_text = Some (rs', n) ->
  length rs' = length rs /\ r_font <$> rs' = r_font <$> rs.
Proof.
  intros H. pose proof (replace_in_paragraph_fonts _ _ _ _ _ _ H) as Hf.
  split; [|exact Hf].
  rewrite <- (length_fmap r_font rs'), Hf, length_fmap. done.
Qed.

Lemma replace_in_paragraph_keeps_fonts_witness :
  let rs := [mkRun (py "ab") plain; mkRun (py "cd") arial_bold; mkRun (py "ef") plain] in
  replace_in_paragraph 10 rs (py "bcde") (py "X")
    = Some ([mkRun (py "aXf") plain; mkRun [] arial_bold; mkRun [] plain], 1) /\
  length [mkRun (py "aXf") plain; mkRun [] arial_bold; mkRun [] plain] = length rs /\
  r_font <$> [mkRun (py "aXf") plain; mkRun [] arial_bold; mkRun [] plain] = r_font <$> rs.
Proof.
  intros rs.
  assert (H : replace_in_paragraph 10 rs (py "bcde") (py "X")
                = Some ([mkRun (py "aXf") plain; mkRun [] arial_bold; mkRun [] plain], 1))
    by (vm_compute; reflexivity).
  split; [exact H|].
  exact (replace_in_paragraph_keeps_fonts 10 rs (py "bcde") (py "X") _ 1 H).
Defined.

(** X4: whenever [replace_text] returns a document, that document has the
    shape of the old one (paragraphs, runs, tables, rows, cells, nested
    tables) and every run keeps its font; only run texts change. *)
Theorem replace_text_keeps_shape fuel d search_text repl d' n :
  replace_text fuel (Some d) search_text repl = Some (Some d', n) ->
  erase_doc d' = erase_doc d.
Proof. exact (replace_text_shape fuel d search_text repl d' n). Qed.

Lemma replace_text_keeps_shape_witness :
  let d := mkDocument [[mkRun (py "ab") plain; mkRun (py "cd") arial_bold]]
             [Table [[Cell [[mkRun (py "x") arial_bold; mkRun (py "yz") plain]] []]]] in
  let d' := mkDocument [[mkRun (py "aQ") plain; mkRun [] arial_bold]]
             [Table [[Cell [[mkRun (py "x") arial_bold; mkRun (py "yz") plain]] []]]] in
  replace_text 10 (Some d) (py "bcd") (py "Q") = Some (Some d', 1) /\
  erase_doc d' = erase_doc d.
Proof.
  intros d d'.
  assert (H : replace_text 10 (Some d) (py "bcd") (py "Q") = Some (Some d', 1))
    by (vm_compute; reflexivity).
  split; [exact H|].
  exact (replace_text_keeps_shape 10 d (py "bcd") (py "Q") d' 1 H).
Defined.

(** X5: on a loaded document, [replace_multiple] with one more pair is the
    call for the earlier pairs followed by [replace_text] for the last pair;
    its total adds the last count, but [replacement_count], and the
    [replacement_count] of [get_statistics], hold only the last pair's
    count. *)
Theorem replace_multiple_snoc fuel st replacements search_text replace_text st' total :
  p_doc st <> None ->
  replace_multiple fuel st (replacements ++ [(search_text, replace_text)]) = Some (st', total) ->
  exists st1 t1 n,
    replace_multiple fuel st replacements = Some (st1, t1) /\
    proc_replace_text fuel st1 search_text replace_text = Some (st', n) /\
    total = t1 + n /\ p_replacement_count st' = n /\
    exists stats, get_statistics st' = Some stats /\ stat_replacement_count stats = n.
Proof.
  intros Hd. unfold replace_multiple.
  destruct (p_doc st) as [d|] eqn:Hst; [|done].
  assert (Hd0 : p_doc st <> None) by (rewrite Hst; discriminate).
  rewrite replace_pairs_app.
  destruct (replace_pairs fuel st replacements 0) as [[st1 t1]|] eqn:H1; [|discriminate].
  cbn [replace_pairs].
  destruct (proc_replace_text fuel st1 search_text replace_text) as [[st2 n]|] eqn:H2;
    [|discriminate].
  intros H. injection H as <- <-.
  assert (Hd1 : p_doc st1 <> None) by exact (replace_pairs_loaded _ _ _ _ _ _ Hd0 H1).
  destruct (proc_replace_text_loaded _ _ _ _ _ _ Hd1 H2) as [Hd2 Hc].
  exists st1, t1, n. split_and!; try done.
  unfold get_statistics. destruct (p_doc st2); [|done].
  eexists. split; [reflexivity|]. exact Hc.
Qed.

Lemma replace_multiple_snoc_witness :
  let st := mkProcessor (py "a.docx") (Some (mkDocument [[mkRun (py "aab") plain]] [])) None 0 in
  p_doc st <> None /\
  replace_multiple 10 st ([(py "a", py "b")] ++ [(py "b", py "c")])
    = Some (mkProcessor (py "a.docx") (Some (mkDocument [[mkRun (py "ccc") plain]] [])) None 3, 5) /\
  exists st1 t1 n,
    replace_multiple 10 st [(py "a", py "b")] = Some (st1, t1) /\
    proc_replace_text 10 st1 (py "b") (py "c")
      = Some (mkProcessor (py "a.docx") (Some (mkDocument [[mkRun (py "ccc") plain]] [])) None 3, n) /\
    5 = t1 + n /\
    p_replacement_count (mkProcessor (py "a.docx") (Some (mkDocument [[mkRun (py "ccc") plain]] []))
                           None 3) = n /\
    exists stats,
      get_statistics (mkProcessor (py "a.docx") (Some (mkDocument [[mkRun (py "ccc") plain]] []))
                        None 3) = Some stats /\ stat_replacement_count stats = n.
Proof.
  intros st.
  assert (Hd : p_doc st <> None) by (refine (bool_decide_unpack _ _); vm_compute; exact I).
  assert (H : replace_multiple 10 st ([(py "a", py "b")] ++ [(py "b", py "c")])
    = Some (mkProcessor (py "a.docx") (Some (mkDocument [[mkRun (py "ccc") plain]] [])) None 3, 5))
    by (vm_compute; reflexivity).
  split; [exact Hd|]. split; [exact H|].
  exact (replace_multiple_snoc 10 st [(py "a", py "b")] (py "b") (py "c") _ 5 Hd H).
Defined.

(** X6: the [word_count] of [get_statistics] (words of [text.split()]
    over the body paragraphs) never exceeds its [character_count]. *)
Theorem get_statistics_words_le_chars st stats :
  get_statistics st = Some stats -> word_count stats <= character_count stats.
Proof.
  unfold get_statistics. destruct (p_doc st) as [d|]; [|discriminate].
  intros H. injection H as <-. cbn [word_count character_count].
  apply sum_list_fmap_le. intros p. apply py_split_length.
Qed.

Lemma get_statistics_words_le_chars_witness :
  let st := mkProcessor (py "a.docx")
              (Some (mkDocument [[mkRun (py " two  words ") plain]; [mkRun (py "x") plain]] [])) None 0 in
  get_statistics st = Some (mkStatistics 2 0 13 3 0 0) /\ 3 <= 13.
Proof.
  intros st.
  assert (H : get_statistics st = Some (mkStatistics 2 0 13 3 0 0)) by (vm_compute; reflexivity).
  split; [exact H|].
  exact (get_statistics_words_le_chars st _ H).
Defined.

(** X8: [get_summary] splits the results into the successful and the
    failed ones: its [successful] and [failed] counts are the lengths of
    [get_successful_results] and [get_failed_results], they add up to
    [total_files], and those two lists together are the results, up to
    order. *)
Theorem get_summary_partition results :
  let sm := get_summary results in
  successful sm = length (get_successful_results results) /\
  failed_count sm = length (get_failed_results results) /\
  successful sm + failed_count sm = total_files sm /\
  get_successful_results results ++ get_failed_results results ≡ₚ results.
Proof.
  intros sm.
  assert (H : length (get_successful_results results) + length (get_failed_results results)
                = length results /\
              get_successful_results results ++ get_failed_results results ≡ₚ results).
  { unfold get_successful_results, get_failed_results.
    induction results as [|r rs [IHl IHp]]; [done|].
    rewrite !filter_cons. destruct (res_success r).
    - rewrite decide_True, decide_False by done. simpl. split; [lia|]. by rewrite IHp.
    - rewrite decide_False, decide_True by done. rewrite length_cons, <- Permutation_middle.
      simpl. split; [lia|]. by rewrite IHp. }
  destruct H as [Hl Hp].
  unfold sm, get_summary. cbn [successful failed_count total_files].
  fold (get_successful_results results).
  split_and!; [done|lia|lia|exact Hp].
Qed.

(** X9: in [self.results] after [process_documents], whether it returns
    or a callback's exception propagates, a failed result never carries
    replacements, so the [total_replacements] of [get_summary] is the sum
    over [get_successful_results]. *)
Theorem process_documents_total_replacements env fsv cb cbs paths order task_stopped stop_seen :
  let rs := bs_results (fst (process_documents_run env fsv cb cbs paths order task_stopped
                                stop_seen)) in
  Forall (fun r => res_success r = false -> res_replacements r = 0) rs /\
  total_replacements (get_summary rs)
    = sum_list (res_replacements <$> get_successful_results rs).
Proof.
  intros rs.
  pose proof (process_documents_failed_zero env fsv cb cbs paths order task_stopped stop_seen) as H.
  split; [exact H|]. unfold get_summary. cbn [total_replacements].
  apply sum_replacements_successful. exact H.
Qed.

(** X10: [_process_single_file] saves only after loading the document
    and, when backups are requested, only after [create_backup] returned a
    path, which is then the result's [backup_path]; a successful result
    always comes with the save and reports the replacement count. *)
Theorem process_single_file_save_after_backup env cb stopped p :
  let '(r, io) := process_single_file env cb stopped p in
  (IoSave p ∈ io ->
     io = IoLoad p :: (if cb then [IoBackup p] else []) ++ [IoSave p] /\
     (cb = true -> backup_outcome env p = inl (res_backup_path r))) /\
  (res_success r = true -> IoSave p ∈ io /\ res_replacements r = replacements_made env p).
Proof.
  unfold process_single_file.
  destruct stopped.
  { split; intros H; [inversion H|discriminate]. }
  destruct (negb (load_ok env p)).
  { split; intros H; [|discriminate].
    apply list_elem_of_In in H. simpl in H. intuition discriminate. }
  destruct (doc_errors env p) as [|e errs].
  2:{ split; intros H; [|discriminate].
      apply list_elem_of_In in H. simpl in H. intuition discriminate. }
  destruct cb; [destruct (backup_outcome env p) as [bp|msg] eqn:Hb|].
  - destruct (save_ok env p); cbn; (split; [intros _; split; [done|intros _; done]|]);
      intros H; try discriminate; split; [|done];
      apply list_elem_of_In; simpl; tauto.
  - split; intros H; [|discriminate].
    apply list_elem_of_In in H. simpl in H. intuition discriminate.
  - destruct (save_ok env p); cbn; (split; [intros _; split; [done|discriminate]|]);
      intros H; try discriminate; split; [|done];
      apply list_elem_of_In; simpl; tauto.
Qed.


(** X12: without a [backup_dir], [create_backup] of a path with no [/]
    (a bare file name such as [report.docx]) calls [os.makedirs("")],
    which raises [FileNotFoundError]; nothing is created. *)
Theorem create_backup_bare_file_name doc_path w :
  slash ∉ doc_path -> create_backup doc_path None w = (inl FileNotFoundError, w).
Proof.
  intros H. unfold create_backup. rewrite (os_path_dirname_no_slash doc_path H).
  reflexivity.
Qed.

Lemma create_backup_bare_file_name_witness :
  (slash ∉ py "report.docx") /\
  create_backup (py "report.docx") None occupied_world = (inl FileNotFoundError, occupied_world).
Proof.
  assert (H : slash ∉ py "report.docx") by (refine (bool_decide_unpack _ _); vm_compute; exact I).
  split; [exact H|].
  exact (create_backup_bare_file_name (py "report.docx") occupied_world H).
Defined.

(** X13: the parent-directory hint in a backup name is never empty, has
    at most 20 characters, all in [[0-9A-Za-z_一-鿿]] (so no [/] or [.]),
    and is either the fallback [_root_] or does not start with [_]. *)
Theorem parent_hint_shape doc_path :
  let h := parent_hint doc_path in
  h <> [] /\ length h <= 20 /\ Forall (fun c => hint_char c = true) h /\
  (h = py "_root_" \/ head h <> Some underscore).
Proof.
  intros h. unfold h, parent_hint. cbv zeta.
  generalize (if bool_decide (os_path_basename (os_path_dirname doc_path) = [])
              then py "_root_" else os_path_basename (os_path_dirname doc_path)) as pd.
  intros pd.
  pose proof (sub_non_hint_hint false pd) as Hall.
  destruct (lstrip_char_suffix underscore (sub_non_hint false pd)) as (k1 & Hk1).
  destruct (rstrip_char_prefix underscore (lstrip_char underscore (sub_non_hint false pd)))
    as (k2 & Hk2).
  destruct (rstrip_char underscore (lstrip_char underscore (sub_non_hint false pd)))
    as [|a x] eqn:Ex.
  - rewrite bool_decide_true by done.
    split_and!; [discriminate|vm_compute; lia|vm_compute; repeat constructor|left; done].
  - rewrite bool_decide_false by done.
    rewrite Hk1, Hk2, Forall_app, Forall_app in Hall. destruct Hall as [_ [Hax _]].
    simpl in Hk2. apply lstrip_char_head in Hk2.
    split_and!.
    + destruct x; discriminate.
    + rewrite length_take. lia.
    + apply Forall_take. exact Hax.
    + right. destruct x; simpl; intros Hh; injection Hh; done.
Qed.

(** X14: when its first attempt goes through, [create_backup] touches the
    file system only at the returned backup path, which gets the source's
    bytes, and at its temporary path, which ends up absent; every other
    file is as it was, and the backup directory is recorded. *)
Theorem create_backup_frame doc_path backup_dir w h6 c :
  path_hash6 (os_path_abspath (w_cwd w) doc_path) = Some h6 ->
  backup_dir <> [] -> w_files w !! backup_dir = None ->
  w_files w !! doc_path = Some c ->
  first_tmp_path doc_path backup_dir w h6 ∉ {[backup_dir]} ∪ w_dirs w ->
  first_backup_path doc_path backup_dir w h6 ∉ {[backup_dir]} ∪ w_dirs w ->
  first_tmp_path doc_path backup_dir w h6 <> doc_path ->
  first_tmp_path doc_path backup_dir w h6 <> first_backup_path doc_path backup_dir w h6 ->
  fst (create_backup doc_path (Some backup_dir) w) = inr (first_backup_path doc_path backup_dir w h6) /\
  w_files (snd (create_backup doc_path (Some backup_dir) w))
    = <[first_backup_path doc_path backup_dir w h6 := c]>
        (delete (first_tmp_path doc_path backup_dir w h6) (w_files w)) /\
  w_dirs (snd (create_backup doc_path (Some backup_dir) w)) = {[backup_dir]} ∪ w_dirs w.
Proof.
  intros Hh Hbd Hbdf Hdoc HT HP HTd HTP.
  rewrite (create_backup_first_attempt_world doc_path backup_dir w h6 c Hh Hbd Hbdf Hdoc HT HP HTd HTP).
  done.
Qed.

Lemma create_backup_frame_witness :
  fst (create_backup (py "/data/report.docx") (Some (py "/backups")) occupied_world)
    = inr (first_backup_path (py "/data/report.docx") (py "/backups") occupied_world (py "c03e26")) /\
  w_files (snd (create_backup (py "/data/report.docx") (Some (py "/backups")) occupied_world))
    = <[first_backup_path (py "/data/report.docx") (py "/backups") occupied_world (py "c03e26")
          := py "new"]>
        (delete (first_tmp_path (py "/data/report.docx") (py "/backups") occupied_world (py "c03e26"))
           (w_files occupied_world)) /\
  w_dirs (snd (create_backup (py "/data/report.docx") (Some (py "/backups")) occupied_world))
    = {[py "/backups"]} ∪ w_dirs occupied_world.
Proof.
  apply (create_backup_frame (py "/data/report.docx") (py "/backups") occupied_world
           (py "c03e26") (py "new")).
  all: try (vm_compute; reflexivity).
  all: refine (bool_decide_unpack _ _); vm_compute; exact I.
Defined.

(** X15: after a backup made by [create_backup]'s first attempt, however
    the document is overwritten afterwards, [restore_backup] with that
    backup path copies the backed-up bytes back over the document and
    answers what [load()] of those bytes answers. *)
Theorem restore_backup_after_create_backup parses doc_path backup_dir w h6 c c' :
  path_hash6 (os_path_abspath (w_cwd w) doc_path) = Some h6 ->
  backup_dir <> [] -> w_files w !! backup_dir = None ->
  w_files w !! doc_path = Some c ->
  first_tmp_path doc_path backup_dir w h6 ∉ {[backup_dir]} ∪ w_dirs w ->
  first_backup_path doc_path backup_dir w h6 ∉ {[backup_dir]} ∪ w_dirs w ->
  first_tmp_path doc_path backup_dir w h6 <> doc_path ->
  first_tmp_path doc_path backup_dir w h6 <> first_backup_path doc_path backup_dir w h6 ->
  doc_path ∉ {[backup_dir]} ∪ w_dirs w ->
  first_backup_path doc_path backup_dir w h6 <> doc_path ->
  let w1 := snd (create_backup doc_path (Some backup_dir) w) in
  let w2 := set_files (<[doc_path := c']> (w_files w1)) w1 in
  restore_backup parses doc_path (Some (first_backup_path doc_path backup_dir w h6)) w2 =
    (inr (parses c), set_files (<[doc_path := c]> (w_files w2)) w2).
Proof.
  intros Hh Hbd Hbdf Hdoc HT HP HTd HTP Hd HPd w1 w2.
  pose proof (create_backup_first_attempt_world doc_path backup_dir w h6 c
                Hh Hbd Hbdf Hdoc HT HP HTd HTP) as Hw.
  apply restore_backup_eval.
  - apply first_backup_path_nonempty.
  - unfold w2, w1. rewrite Hw. cbn.
    rewrite lookup_insert_ne by congruence. rewrite lookup_insert_eq. done.
  - unfold w2, w1. rewrite Hw. exact Hd.
Qed.

Lemma restore_backup_after_create_backup_witness :
  let w1 := snd (create_backup (py "/data/report.docx") (Some (py "/backups")) occupied_world) in
  let w2 := set_files (<[py "/data/report.docx" := py "edited"]> (w_files w1)) w1 in
  restore_backup (fun _ => true) (py "/data/report.docx")
    (Some (first_backup_path (py "/data/report.docx") (py "/backups") occupied_world (py "c03e26"))) w2
    = (inr true, set_files (<[py "/data/report.docx" := py "new"]> (w_files w2)) w2).
Proof.
  apply (restore_backup_after_create_backup (fun _ => true) (py "/data/report.docx") (py "/backups")
           occupied_world (py "c03e26") (py "new") (py "edited")).
  all: try (vm_compute; reflexivity).
  all: refine (bool_decide_unpack _ _); vm_compute; exact I.
Defined.
